(** * Blog application: credential utilities, authorization predicate,
      post lifecycle and route handlers

    Shallow embedding of
    - [server/src/utils/auth.js] (token issue and verification, password
      strength, [hasRole]),
    - [server/src/middleware/auth.js] ([authenticate], [authorize]),
    - [server/src/models/Post.js] (schema, pre-save hook, lifecycle methods),
    - [server/src/routes/posts.js] (list, create, update, delete, submit,
      approve, reject),
    - [server/src/routes/users.js] (delete, deactivate, activate),
    - [server/src/models/Category.js] (the slug of the pre-save hook),
    - [client/src/pages/CreatePost.jsx] (the slug the form sends).

    Conventions.  A JavaScript string is a [string], one character per
    element; [length] is the character count.  An ObjectId is the string
    of its hexadecimal form, so [toString()] on it is the identity; the
    ids of requests and bodies are taken to be such forms (one that does
    not cast is answered 404 by the error handler before anything is
    written).  A [Date] is the integer number of seconds it denotes and
    [new Date()] is the clock value [now] handed to the operation.  The
    collection of posts is a finite map from ObjectId to document. *)

From Stdlib Require Import ZArith Ascii String List Bool Lia.
From stdpp Require Import gmap strings list fin_maps.

Local Open Scope string_scope.
Local Open Scope list_scope.
Set Warnings "-abstract-large-number".

(* ===================================================================== *)
(** * JavaScript values and regular-expression tests *)
(* ===================================================================== *)

Module Js.

(** The values a JSON body can put in a string-typed field. *)
Inductive Value :=
| Undefined
| Null
| Str (s : string).

(** [!!v] *)
Definition truthy (v : Value) : bool :=
  match v with
  | Undefined | Null => false
  | Str s => negb (String.eqb s "")
  end.

(** [String(v)], the conversion [RegExp.prototype.test] applies. *)
Definition toString (v : Value) : string :=
  match v with
  | Undefined => "undefined"
  | Null => "null"
  | Str s => s
  end.

Definition code (c : ascii) : nat := nat_of_ascii c.

Definition inRange (lo hi : nat) (c : ascii) : bool :=
  (lo <=? code c)%nat && (code c <=? hi)%nat.

(** [[a-z]], [[A-Z]], [\d], [[@$!%*?&]] *)
Definition lowerClass : ascii -> bool := inRange 97 122.
Definition upperClass : ascii -> bool := inRange 65 90.
Definition digitClass : ascii -> bool := inRange 48 57.
Definition specialClass (c : ascii) : bool :=
  existsb (Ascii.eqb c) (list_ascii_of_string "@$!%*?&").

(** [.] matches any character except a line terminator. *)
Definition lineTerminator (c : ascii) : bool :=
  (code c =? 10)%nat || (code c =? 13)%nat.

(** [.*[cls]] matched at the start of [s]. *)
Fixpoint dotStarThen (cls : ascii -> bool) (s : string) : bool :=
  match s with
  | EmptyString => false
  | String c rest => cls c || (negb (lineTerminator c) && dotStarThen cls rest)
  end.

(** [/(?=.*[cls])/.test(s)]: the look-ahead is tried at every start
    position, left to right. *)
Fixpoint lookaheadSearch (cls : ascii -> bool) (s : string) : bool :=
  dotStarThen cls s ||
  match s with
  | EmptyString => false
  | String _ rest => lookaheadSearch cls rest
  end.

Definition test (cls : ascii -> bool) (v : Value) : bool :=
  lookaheadSearch cls (toString v).

(** [s.trim()] restricted to the white space an [ascii] can hold. *)
Definition whitespace (c : ascii) : bool :=
  inRange 9 13 c || (code c =? 32)%nat || (code c =? 160)%nat.

Fixpoint trimStart (s : string) : string :=
  match s with
  | EmptyString => EmptyString
  | String c rest => if whitespace c then trimStart rest else s
  end.

Fixpoint trimEnd (s : string) : string :=
  match s with
  | EmptyString => EmptyString
  | String c rest =>
      match trimEnd rest with
      | EmptyString => if whitespace c then EmptyString else String c EmptyString
      | r => String c r
      end
  end.

Definition trim (s : string) : string := trimEnd (trimStart s).

End Js.

(** Some character of [s] is in the class [cls]. *)
Fixpoint containsClass (cls : ascii -> bool) (s : string) : bool :=
  match s with
  | EmptyString => false
  | String c rest => cls c || containsClass cls rest
  end.

(* ===================================================================== *)
(** * Users and thrown errors *)
(* ===================================================================== *)

(** A user document as the handlers read it.  [role] is [None] when the
    attribute is missing. *)
Record User := mkUser {
  user_id : string;
  username : string;
  email : string;
  role : option string;
  isActive : bool
}.

(** A computation that returns or throws [new Error(message)]. *)
Inductive Exc (A : Type) :=
| Return (a : A)
| Throw (message : string).
Arguments Return {A} a.
Arguments Throw {A} message.

(* ===================================================================== *)
(** * utils/auth.js: password strength and role check *)
(* ===================================================================== *)

Record PasswordCheck := mkPasswordCheck {
  isValid : bool;
  errors : list string
}.

Definition msgLength := "Password must be at least 8 characters long".
Definition msgLower := "Password must contain at least one lowercase letter".
Definition msgUpper := "Password must contain at least one uppercase letter".
Definition msgDigit := "Password must contain at least one number".
Definition msgSpecial :=
  "Password must contain at least one special character (@$!%*?&)".

(** [errors.push(m)] when [c] holds. *)
Definition pushIf (c : bool) (m : string) (errs : list string) : list string :=
  if c then errs ++ [m] else errs.

(** [!password || password.length < 8]; the length is read only when the
    value is truthy, hence only on a string. *)
Definition tooShort (password : Js.Value) : bool :=
  negb (Js.truthy password) ||
  match password with
  | Js.Str s => (String.length s <? 8)%nat
  | _ => false
  end.

Definition validatePasswordStrength (password : Js.Value) : PasswordCheck :=
  let errors := [] in
  let errors := pushIf (tooShort password) msgLength errors in
  let errors := pushIf (negb (Js.test Js.lowerClass password)) msgLower errors in
  let errors := pushIf (negb (Js.test Js.upperClass password)) msgUpper errors in
  let errors := pushIf (negb (Js.test Js.digitClass password)) msgDigit errors in
  let errors := pushIf (negb (Js.test Js.specialClass password)) msgSpecial errors in
  let isValid := (List.length errors =? 0)%nat in
  {| isValid := isValid; errors := errors |}.

(** [requiredRoles]: one role or an array of roles. *)
Inductive RequiredRoles :=
| OneRole (r : string)
| RoleArray (rs : list string).

(** [Array.isArray(requiredRoles) ? requiredRoles : [requiredRoles]] *)
Definition rolesOf (requiredRoles : RequiredRoles) : list string :=
  match requiredRoles with
  | OneRole r => [r]
  | RoleArray rs => rs
  end.

(** [roles.includes(r)] *)
Definition includes (roles : list string) (r : string) : bool :=
  existsb (String.eqb r) roles.

(** [hasRole]; the same text is in [utils/auth.js] and
    [middleware/auth.js].  [!user.role] holds for a missing role and for
    the empty string. *)
Definition hasRole (user : option User) (requiredRoles : RequiredRoles) : bool :=
  match user with
  | None => false
  | Some u =>
      match role u with
      | None => false
      | Some r =>
          if negb (Js.truthy (Js.Str r)) then false
          else includes (rolesOf requiredRoles) r
      end
  end.

(* ===================================================================== *)
(** * models/Post.js: the document, its validators, hook and methods *)
(* ===================================================================== *)

Record Seo := mkSeo {
  metaTitle : option string;
  metaDescription : option string;
  keywords : list string
}.

(** A post document.  The reference fields hold ObjectIds; the fields
    whose schema default is [null] are options; [createdAt] and
    [updatedAt] are the two fields of [timestamps: true]. *)
Record Post := mkPost {
  title : string;
  content : string;
  author : string;
  category : string;
  slug : string;
  excerpt : option string;
  featuredImage : option string;
  tags : list string;
  status : string;
  isPublished : bool;
  publishedAt : option Z;
  isApproved : bool;
  approvedBy : option string;
  approvedAt : option Z;
  rejectionReason : option string;
  submittedForApproval : bool;
  submittedAt : option Z;
  viewCount : Z;
  likeCount : Z;
  commentCount : Z;
  seo : Seo;
  createdAt : Z;
  updatedAt : Z
}.

(** Field assignment, [this.f = v]. *)
Definition set_title (v : string) (p : Post) : Post :=
  mkPost v (content p) (author p) (category p) (slug p) (excerpt p)
    (featuredImage p) (tags p) (status p) (isPublished p) (publishedAt p)
    (isApproved p) (approvedBy p) (approvedAt p) (rejectionReason p)
    (submittedForApproval p) (submittedAt p) (viewCount p) (likeCount p)
    (commentCount p) (seo p) (createdAt p) (updatedAt p).
Definition set_content (v : string) (p : Post) : Post :=
  mkPost (title p) v (author p) (category p) (slug p) (excerpt p)
    (featuredImage p) (tags p) (status p) (isPublished p) (publishedAt p)
    (isApproved p) (approvedBy p) (approvedAt p) (rejectionReason p)
    (submittedForApproval p) (submittedAt p) (viewCount p) (likeCount p)
    (commentCount p) (seo p) (createdAt p) (updatedAt p).
Definition set_author (v : string) (p : Post) : Post :=
  mkPost (title p) (content p) v (category p) (slug p) (excerpt p)
    (featuredImage p) (tags p) (status p) (isPublished p) (publishedAt p)
    (isApproved p) (approvedBy p) (approvedAt p) (rejectionReason p)
    (submittedForApproval p) (submittedAt p) (viewCount p) (likeCount p)
    (commentCount p) (seo p) (createdAt p) (updatedAt p).
Definition set_category (v : string) (p : Post) : Post :=
  mkPost (title p) (content p) (author p) v (slug p) (excerpt p)
    (featuredImage p) (tags p) (status p) (isPublished p) (publishedAt p)
    (isApproved p) (approvedBy p) (approvedAt p) (rejectionReason p)
    (submittedForApproval p) (submittedAt p) (viewCount p) (likeCount p)
    (commentCount p) (seo p) (createdAt p) (updatedAt p).
Definition set_slug (v : string) (p : Post) : Post :=
  mkPost (title p) (content p) (author p) (category p) v (excerpt p)
    (featuredImage p) (tags p) (status p) (isPublished p) (publishedAt p)
    (isApproved p) (approvedBy p) (approvedAt p) (rejectionReason p)
    (submittedForApproval p) (submittedAt p) (viewCount p) (likeCount p)
    (commentCount p) (seo p) (createdAt p) (updatedAt p).
Definition set_excerpt (v : option string) (p : Post) : Post :=
  mkPost (title p) (content p) (author p) (category p) (slug p) v
    (featuredImage p) (tags p) (status p) (isPublished p) (publishedAt p)
    (isApproved p) (approvedBy p) (approvedAt p) (rejectionReason p)
    (submittedForApproval p) (submittedAt p) (viewCount p) (likeCount p)
    (commentCount p) (seo p) (createdAt p) (updatedAt p).
Definition set_featuredImage (v : option string) (p : Post) : Post :=
  mkPost (title p) (content p) (author p) (category p) (slug p) (excerpt p)
    v (tags p) (status p) (isPublished p) (publishedAt p) (isApproved p)
    (approvedBy p) (approvedAt p) (rejectionReason p)
    (submittedForApproval p) (submittedAt p) (viewCount p) (likeCount p)
    (commentCount p) (seo p) (createdAt p) (updatedAt p).
Definition set_tags (v : list string) (p : Post) : Post :=
  mkPost (title p) (content p) (author p) (category p) (slug p) (excerpt p)
    (featuredImage p) v (status p) (isPublished p) (publishedAt p)
    (isApproved p) (approvedBy p) (approvedAt p) (rejectionReason p)
    (submittedForApproval p) (submittedAt p) (viewCount p) (likeCount p)
    (commentCount p) (seo p) (createdAt p) (updatedAt p).
Definition set_status (v : string) (p : Post) : Post :=
  mkPost (title p) (content p) (author p) (category p) (slug p) (excerpt p)
    (featuredImage p) (tags p) v (isPublished p) (publishedAt p)
    (isApproved p) (approvedBy p) (approvedAt p) (rejectionReason p)
    (submittedForApproval p) (submittedAt p) (viewCount p) (likeCount p)
    (commentCount p) (seo p) (createdAt p) (updatedAt p).
Definition set_isPublished (v : bool) (p : Post) : Post :=
  mkPost (title p) (content p) (author p) (category p) (slug p) (excerpt p)
    (featuredImage p) (tags p) (status p) v (publishedAt p) (isApproved p)
    (approvedBy p) (approvedAt p) (rejectionReason p)
    (submittedForApproval p) (submittedAt p) (viewCount p) (likeCount p)
    (commentCount p) (seo p) (createdAt p) (updatedAt p).
Definition set_publishedAt (v : option Z) (p : Post) : Post :=
  mkPost (title p) (content p) (author p) (category p) (slug p) (excerpt p)
    (featuredImage p) (tags p) (status p) (isPublished p) v (isApproved p)
    (approvedBy p) (approvedAt p) (rejectionReason p)
    (submittedForApproval p) (submittedAt p) (viewCount p) (likeCount p)
    (commentCount p) (seo p) (createdAt p) (updatedAt p).
Definition set_isApproved (v : bool) (p : Post) : Post :=
  mkPost (title p) (content p) (author p) (category p) (slug p) (excerpt p)
    (featuredImage p) (tags p) (status p) (isPublished p) (publishedAt p) v
    (approvedBy p) (approvedAt p) (rejectionReason p)
    (submittedForApproval p) (submittedAt p) (viewCount p) (likeCount p)
    (commentCount p) (seo p) (createdAt p) (updatedAt p).
Definition set_approvedBy (v : option string) (p : Post) : Post :=
  mkPost (title p) (content p) (author p) (category p) (slug p) (excerpt p)
    (featuredImage p) (tags p) (status p) (isPublished p) (publishedAt p)
    (isApproved p) v (approvedAt p) (rejectionReason p)
    (submittedForApproval p) (submittedAt p) (viewCount p) (likeCount p)
    (commentCount p) (seo p) (createdAt p) (updatedAt p).
Definition set_approvedAt (v : option Z) (p : Post) : Post :=
  mkPost (title p) (content p) (author p) (category p) (slug p) (excerpt p)
    (featuredImage p) (tags p) (status p) (isPublished p) (publishedAt p)
    (isApproved p) (approvedBy p) v (rejectionReason p)
    (submittedForApproval p) (submittedAt p) (viewCount p) (likeCount p)
    (commentCount p) (seo p) (createdAt p) (updatedAt p).
Definition set_rejectionReason (v : option string) (p : Post) : Post :=
  mkPost (title p) (content p) (author p) (category p) (slug p) (excerpt p)
    (featuredImage p) (tags p) (status p) (isPublished p) (publishedAt p)
    (isApproved p) (approvedBy p) (approvedAt p) v (submittedForApproval p)
    (submittedAt p) (viewCount p) (likeCount p) (commentCount p) (seo p)
    (createdAt p) (updatedAt p).
Definition set_submittedForApproval (v : bool) (p : Post) : Post :=
  mkPost (title p) (content p) (author p) (category p) (slug p) (excerpt p)
    (featuredImage p) (tags p) (status p) (isPublished p) (publishedAt p)
    (isApproved p) (approvedBy p) (approvedAt p) (rejectionReason p) v
    (submittedAt p) (viewCount p) (likeCount p) (commentCount p) (seo p)
    (createdAt p) (updatedAt p).
Definition set_submittedAt (v : option Z) (p : Post) : Post :=
  mkPost (title p) (content p) (author p) (category p) (slug p) (excerpt p)
    (featuredImage p) (tags p) (status p) (isPublished p) (publishedAt p)
    (isApproved p) (approvedBy p) (approvedAt p) (rejectionReason p)
    (submittedForApproval p) v (viewCount p) (likeCount p) (commentCount p)
    (seo p) (createdAt p) (updatedAt p).
Definition set_viewCount (v : Z) (p : Post) : Post :=
  mkPost (title p) (content p) (author p) (category p) (slug p) (excerpt p)
    (featuredImage p) (tags p) (status p) (isPublished p) (publishedAt p)
    (isApproved p) (approvedBy p) (approvedAt p) (rejectionReason p)
    (submittedForApproval p) (submittedAt p) v (likeCount p)
    (commentCount p) (seo p) (createdAt p) (updatedAt p).
Definition set_likeCount (v : Z) (p : Post) : Post :=
  mkPost (title p) (content p) (author p) (category p) (slug p) (excerpt p)
    (featuredImage p) (tags p) (status p) (isPublished p) (publishedAt p)
    (isApproved p) (approvedBy p) (approvedAt p) (rejectionReason p)
    (submittedForApproval p) (submittedAt p) (viewCount p) v
    (commentCount p) (seo p) (createdAt p) (updatedAt p).
Definition set_commentCount (v : Z) (p : Post) : Post :=
  mkPost (title p) (content p) (author p) (category p) (slug p) (excerpt p)
    (featuredImage p) (tags p) (status p) (isPublished p) (publishedAt p)
    (isApproved p) (approvedBy p) (approvedAt p) (rejectionReason p)
    (submittedForApproval p) (submittedAt p) (viewCount p) (likeCount p) v
    (seo p) (createdAt p) (updatedAt p).
Definition set_seo (v : Seo) (p : Post) : Post :=
  mkPost (title p) (content p) (author p) (category p) (slug p) (excerpt p)
    (featuredImage p) (tags p) (status p) (isPublished p) (publishedAt p)
    (isApproved p) (approvedBy p) (approvedAt p) (rejectionReason p)
    (submittedForApproval p) (submittedAt p) (viewCount p) (likeCount p)
    (commentCount p) v (createdAt p) (updatedAt p).
Definition set_createdAt (v : Z) (p : Post) : Post :=
  mkPost (title p) (content p) (author p) (category p) (slug p) (excerpt p)
    (featuredImage p) (tags p) (status p) (isPublished p) (publishedAt p)
    (isApproved p) (approvedBy p) (approvedAt p) (rejectionReason p)
    (submittedForApproval p) (submittedAt p) (viewCount p) (likeCount p)
    (commentCount p) (seo p) v (updatedAt p).
Definition set_updatedAt (v : Z) (p : Post) : Post :=
  mkPost (title p) (content p) (author p) (category p) (slug p) (excerpt p)
    (featuredImage p) (tags p) (status p) (isPublished p) (publishedAt p)
    (isApproved p) (approvedBy p) (approvedAt p) (rejectionReason p)
    (submittedForApproval p) (submittedAt p) (viewCount p) (likeCount p)
    (commentCount p) (seo p) (createdAt p) v.

(** ** Schema validators and setters *)

(** [s.toLowerCase()] on the letters an [ascii] can hold. *)
Definition lowerChar (c : ascii) : ascii :=
  if Js.upperClass c then ascii_of_nat (Js.code c + 32) else c.

Fixpoint toLowerCase (s : string) : string :=
  match s with
  | EmptyString => EmptyString
  | String c rest => String (lowerChar c) (toLowerCase rest)
  end.

Definition lengthBetween (lo hi : nat) (s : string) : bool :=
  (lo <=? String.length s)%nat && (String.length s <=? hi)%nat.

Definition maxLength (hi : nat) (s : string) : bool :=
  (String.length s <=? hi)%nat.

(** A [maxlength] validator on a field that may be [null]. *)
Definition maxLengthOpt (hi : nat) (o : option string) : bool :=
  match o with
  | None => true
  | Some s => maxLength hi s
  end.

Definition statusEnum : list string :=
  ["draft"; "pending"; "published"; "rejected"; "archived"].

(** The paths of the schema that carry a validator. *)
Inductive Path :=
| PTitle | PContent | PAuthor | PCategory | PSlug | PExcerpt | PTags
| PStatus | PRejectionReason | PSeo.

Definition allPaths : list Path :=
  [PTitle; PContent; PAuthor; PCategory; PSlug; PExcerpt; PTags; PStatus;
   PRejectionReason; PSeo].

(** The validator of one path: [required], [minlength], [maxlength] and
    [enum] as the schema lists them. *)
Definition validPath (path : Path) (p : Post) : bool :=
  match path with
  | PTitle => lengthBetween 3 200 (title p)
  | PContent => lengthBetween 10 10000 (content p)
  | PAuthor => negb (String.eqb (author p) "")
  | PCategory => negb (String.eqb (category p) "")
  | PSlug => negb (String.eqb (slug p) "")
  | PExcerpt => maxLengthOpt 300 (excerpt p)
  | PTags => forallb (maxLength 50) (tags p)
  | PStatus => includes statusEnum (status p)
  | PRejectionReason => maxLengthOpt 500 (rejectionReason p)
  | PSeo => maxLengthOpt 60 (metaTitle (seo p)) &&
            maxLengthOpt 160 (metaDescription (seo p))
  end.

(** Validation before a save or an update: the listed paths only. *)
Definition validatePaths (paths : list Path) (p : Post) : bool :=
  forallb (fun path => validPath path p) paths.

(** ** The pre-save hook *)

Definition truthyOpt (o : option string) : bool :=
  match o with
  | None => false
  | Some s => Js.truthy (Js.Str s)
  end.

Definition isNull {A} (o : option A) : bool :=
  match o with
  | None => true
  | Some _ => false
  end.

(** The four statements of the hook, in source order. *)
Definition hookExcerpt (p : Post) : Post :=
  if negb (truthyOpt (excerpt p)) && Js.truthy (Js.Str (content p))
  then set_excerpt (Some (String.append (substring 0 150 (content p)) "...")) p
  else p.

Definition hookPublished (now : Z) (p : Post) : Post :=
  if String.eqb (status p) "published" && isNull (publishedAt p)
  then set_isPublished true (set_publishedAt (Some now) p)
  else p.

Definition hookPending (now : Z) (p : Post) : Post :=
  if String.eqb (status p) "pending" && negb (submittedForApproval p)
  then set_submittedAt (Some now) (set_submittedForApproval true p)
  else p.

Definition hookApproved (p : Post) : Post :=
  if String.eqb (status p) "published" && negb (isApproved p)
  then set_isApproved true p
  else p.

Definition preSave (now : Z) (p : Post) : Post :=
  hookApproved (hookPending now (hookPublished now (hookExcerpt p))).

(** ** Saving and the instance methods *)

(** [this.save()] on a document loaded from the collection: the modified
    paths are validated, then the hook runs, [updatedAt] is stamped and
    the document is written under its id.  A failed validation throws and
    writes nothing. *)
Definition save (now : Z) (id : string) (modified : list Path) (p : Post)
    (db : gmap string Post) : Exc (Post * gmap string Post) :=
  if validatePaths modified p then
    let p := set_updatedAt now (preSave now p) in
    Return (p, <[id := p]> db)
  else Throw "ValidationError".

Definition incrementViewCount (now : Z) (id : string) (this : Post) :=
  let this := set_viewCount (viewCount this + 1)%Z this in
  save now id [] this.

Definition incrementLikeCount (now : Z) (id : string) (this : Post) :=
  let this := set_likeCount (likeCount this + 1)%Z this in
  save now id [] this.

Definition submitForApproval (now : Z) (id : string) (this : Post) :=
  let this := set_status "pending" this in
  let this := set_submittedForApproval true this in
  let this := set_submittedAt (Some now) this in
  save now id [PStatus] this.

Definition approve (now : Z) (id : string) (adminId : string) (this : Post) :=
  let this := set_status "published" this in
  let this := set_isApproved true this in
  let this := set_approvedBy (Some adminId) this in
  let this := set_approvedAt (Some now) this in
  let this := set_publishedAt (Some now) this in
  let this := set_isPublished true this in
  let this := set_rejectionReason None this in
  save now id [PStatus; PRejectionReason] this.

Definition reject (now : Z) (id : string) (adminId reason : string)
    (this : Post) :=
  let this := set_status "rejected" this in
  let this := set_isApproved false this in
  let this := set_approvedBy (Some adminId) this in
  let this := set_approvedAt (Some now) this in
  let this := set_rejectionReason (Some reason) this in
  save now id [PStatus; PRejectionReason] this.


(* ===================================================================== *)
(** * middleware/auth.js and the responses *)
(* ===================================================================== *)

(** The JSON envelope, cut down to its status code, its message and the
    post it carries. *)
Record Response := mkResponse {
  statusCode : nat;
  message : string;
  data : option Post
}.

Definition failure (code : nat) (msg : string) : Response :=
  mkResponse code msg None.

Definition success (code : nat) (msg : string) (p : option Post) : Response :=
  mkResponse code msg p.

(** What [authenticate] finds in the request: no bearer token, a token
    for which [getCurrentUser] yields [null] (bad signature, expired,
    unknown or deactivated user), or the user it loads into [req.user]. *)
Inductive Auth :=
| NoToken
| InvalidToken
| Authenticated (u : User).

(** A handler reads the collection and answers with a response and the
    collection it leaves. *)
Definition Handler : Type :=
  gmap string Post -> Response * gmap string Post.

Definition respond (r : Response) : Handler := fun db => (r, db).

Definition authenticate (auth : Auth) (next : User -> Handler) : Handler :=
  match auth with
  | NoToken => respond (failure 401 "Access denied. No token provided.")
  | InvalidToken => respond (failure 401 "Invalid token. User not found.")
  | Authenticated u => next u
  end.

(** [authorize(...roles)], placed after [authenticate]. *)
Definition authorize (roles : list string) (user : User) (next : Handler)
    : Handler :=
  if negb (hasRole (Some user) (RoleArray roles))
  then respond (failure 403 "Access denied. Insufficient permissions.")
  else next.

(** [asyncHandler] with [errorHandler]: an error thrown by a write (a
    failed validation, a duplicate key) is answered with status 400 and
    nothing is written. *)
Definition orError (r : Exc (Post * gmap string Post))
    (k : Post -> Response) : Handler :=
  fun db =>
    match r with
    | Return (p, db') => (k p, db')
    | Throw m => (failure 400 m, db)
    end.

(* ===================================================================== *)
(** * routes/posts.js: the lifecycle endpoints *)
(* ===================================================================== *)

(** [POST /api/posts/:id/submit] *)
Definition submitRoute (now : Z) (auth : Auth) (id : string) : Handler :=
  authenticate auth (fun user db =>
    match db !! id with
    | None => (failure 404 "Post not found", db)
    | Some post =>
        if negb (String.eqb (author post) (user_id user)) then
          (failure 403 "Access denied. You can only submit your own posts.", db)
        else if negb (String.eqb (status post) "draft") then
          (failure 400 "Only draft posts can be submitted for approval", db)
        else
          orError (submitForApproval now id post db)
            (fun p => success 200 "Post submitted for approval successfully"
                        (Some p)) db
    end).

(** [POST /api/posts/:id/approve] *)
Definition approveRoute (now : Z) (auth : Auth) (id : string) : Handler :=
  authenticate auth (fun user =>
  authorize ["admin"] user (fun db =>
    match db !! id with
    | None => (failure 404 "Post not found", db)
    | Some post =>
        if negb (String.eqb (status post) "pending") then
          (failure 400 "Only pending posts can be approved", db)
        else
          orError (approve now id (user_id user) post db)
            (fun p => success 200 "Post approved successfully" (Some p)) db
    end)).

(** [body('reason').isLength({ min: 10, max: 500 })]: a missing field is
    validated as the empty string. *)
Definition reasonValid (reason : option string) : bool :=
  lengthBetween 10 500 (default "" reason).

(** [POST /api/posts/:id/reject].  The [trim] sanitizer of the chain runs
    after the length check and rewrites [req.body.reason]. *)
Definition rejectRoute (now : Z) (auth : Auth) (id : string)
    (reason : option string) : Handler :=
  authenticate auth (fun user =>
  authorize ["admin"] user (fun db =>
    if negb (reasonValid reason) then
      (failure 400 "Validation failed", db)
    else
      let reason := Js.trim (default "" reason) in
      match db !! id with
      | None => (failure 404 "Post not found", db)
      | Some post =>
          if negb (String.eqb (status post) "pending") then
            (failure 400 "Only pending posts can be rejected", db)
          else
            orError (reject now id (user_id user) reason post db)
              (fun p => success 200 "Post rejected successfully" (Some p)) db
      end)).


(* ===================================================================== *)
(** * routes/posts.js: create, read, update, delete, like *)
(* ===================================================================== *)

(** A request body: each key of the schema is absent or holds a value of
    the schema's type. *)
Record PostBody := mkBody {
  b_title : option string;
  b_content : option string;
  b_author : option string;
  b_category : option string;
  b_slug : option string;
  b_excerpt : option string;
  b_featuredImage : option string;
  b_tags : option (list string);
  b_status : option string;
  b_isPublished : option bool;
  b_publishedAt : option Z;
  b_isApproved : option bool;
  b_approvedBy : option string;
  b_approvedAt : option Z;
  b_rejectionReason : option string;
  b_submittedForApproval : option bool;
  b_submittedAt : option Z;
  b_viewCount : option Z;
  b_likeCount : option Z;
  b_commentCount : option Z;
  b_seo : option Seo
}.

Definition emptyBody : PostBody :=
  mkBody None None None None None None None None None None None None None
    None None None None None None None None.

(** [.optional()]: an absent value passes. *)
Definition optional {A} (check : A -> bool) (o : option A) : bool :=
  match o with
  | None => true
  | Some x => check x
  end.

Definition hexDigit (c : ascii) : bool :=
  Js.digitClass c || Js.inRange 65 70 c || Js.inRange 97 102 c.

Fixpoint allChars (cls : ascii -> bool) (s : string) : bool :=
  match s with
  | EmptyString => true
  | String c rest => cls c && allChars cls rest
  end.

(** [isMongoId()]: 24 hexadecimal digits. *)
Definition isMongoId (s : string) : bool :=
  (String.length s =? 24)%nat && allChars hexDigit s.

(** [matches(/^[a-z0-9-]+$/)] *)
Definition slugChar (c : ascii) : bool :=
  Js.lowerClass c || Js.digitClass c || (Js.code c =? 45)%nat.

Definition slugPattern (s : string) : bool :=
  negb (String.eqb s "") && allChars slugChar s.

(** [isIn(['draft', 'published', 'archived'])] *)
Definition statusAllowed (s : string) : bool :=
  includes ["draft"; "published"; "archived"] s.

Definition seoValid (s : Seo) : bool :=
  optional (maxLength 60) (metaTitle s) &&
  optional (maxLength 160) (metaDescription s).

(** The checks the two chains share: excerpt, tags, status, seo. *)
Definition commonValid (body : PostBody) : bool :=
  optional (maxLength 300) (b_excerpt body) &&
  optional (forallb (maxLength 50)) (b_tags body) &&
  optional statusAllowed (b_status body) &&
  optional seoValid (b_seo body).

(** The validation chain of [POST /api/posts]. *)
Definition createValid (body : PostBody) : bool :=
  lengthBetween 3 200 (default "" (b_title body)) &&
  lengthBetween 10 10000 (default "" (b_content body)) &&
  isMongoId (default "" (b_category body)) &&
  lengthBetween 3 100 (default "" (b_slug body)) &&
  slugPattern (default "" (b_slug body)) &&
  commonValid body.

(** The validation chain of [PUT /api/posts/:id]. *)
Definition updateValid (body : PostBody) : bool :=
  optional (lengthBetween 3 200) (b_title body) &&
  optional (lengthBetween 10 10000) (b_content body) &&
  optional isMongoId (b_category body) &&
  commonValid body.

(** [findBySlug]: some document has this slug, lowercased. *)
Definition findBySlug (s : string) (db : gmap string Post) : bool :=
  existsb (fun kv => String.eqb (slug (snd kv)) (toLowerCase s))
    (map_to_list db).

(** The slug is held by a document other than [id]: the unique index
    refuses the write with a duplicate-key error. *)
Definition slugTaken (id s : string) (db : gmap string Post) : bool :=
  existsb (fun kv => negb (String.eqb (fst kv) id) &&
                     String.eqb (slug (snd kv)) s)
    (map_to_list db).

(** Assignment of a body key when it is present. *)
Definition setOpt {A} (set : A -> Post -> Post) (o : option A) (p : Post) : Post :=
  match o with
  | None => p
  | Some v => set v p
  end.

(** The [$set] an update body amounts to, the schema's setters applied
    ([trim] on title and tags, [lowercase] and [trim] on slug). *)
Definition applyBody (body : PostBody) (p : Post) : Post :=
  let p := setOpt set_title (Js.trim <$> b_title body) p in
  let p := setOpt set_content (b_content body) p in
  let p := setOpt set_author (b_author body) p in
  let p := setOpt set_category (b_category body) p in
  let p := setOpt set_slug ((fun s => Js.trim (toLowerCase s)) <$> b_slug body) p in
  let p := setOpt set_excerpt (Some <$> b_excerpt body) p in
  let p := setOpt set_featuredImage (Some <$> b_featuredImage body) p in
  let p := setOpt set_tags (map Js.trim <$> b_tags body) p in
  let p := setOpt set_status (b_status body) p in
  let p := setOpt set_isPublished (b_isPublished body) p in
  let p := setOpt set_publishedAt (Some <$> b_publishedAt body) p in
  let p := setOpt set_isApproved (b_isApproved body) p in
  let p := setOpt set_approvedBy (Some <$> b_approvedBy body) p in
  let p := setOpt set_approvedAt (Some <$> b_approvedAt body) p in
  let p := setOpt set_rejectionReason (Some <$> b_rejectionReason body) p in
  let p := setOpt set_submittedForApproval (b_submittedForApproval body) p in
  let p := setOpt set_submittedAt (Some <$> b_submittedAt body) p in
  let p := setOpt set_viewCount (b_viewCount body) p in
  let p := setOpt set_likeCount (b_likeCount body) p in
  let p := setOpt set_commentCount (b_commentCount body) p in
  let p := setOpt set_seo (b_seo body) p in
  p.

Definition present {A} (o : option A) (path : Path) : list Path :=
  match o with
  | None => []
  | Some _ => [path]
  end.

(** The validated paths among the keys of an update body. *)
Definition bodyPaths (body : PostBody) : list Path :=
  present (b_title body) PTitle ++ present (b_content body) PContent ++
  present (b_author body) PAuthor ++ present (b_category body) PCategory ++
  present (b_slug body) PSlug ++ present (b_excerpt body) PExcerpt ++
  present (b_tags body) PTags ++ present (b_status body) PStatus ++
  present (b_rejectionReason body) PRejectionReason ++
  present (b_seo body) PSeo.

(** [Post.findByIdAndUpdate(id, req.body, { new: true, runValidators:
    true })]: the body's keys are set on the stored document, their
    validators run, [updatedAt] is stamped; no save hook runs.  The
    result is the updated document, or [null] when there is none. *)
Definition findByIdAndUpdate (now : Z) (id : string) (body : PostBody)
    (db : gmap string Post) : Exc (option Post * gmap string Post) :=
  match db !! id with
  | None => Return (None, db)
  | Some p =>
      let p' := applyBody body p in
      if negb (validatePaths (bodyPaths body) p') then Throw "ValidationError"
      else if negb (isNull (b_slug body)) && slugTaken id (slug p') db then
        Throw "slug already exists"
      else
        let p' := set_updatedAt now p' in
        Return (Some p', <[id := p']> db)
  end.

(** [req.user.role === 'admin'] *)
Definition isAdmin (user : User) : bool :=
  match role user with
  | Some r => String.eqb r "admin"
  | None => false
  end.

(** [PUT /api/posts/:id] *)
Definition updateRoute (now : Z) (auth : Auth) (id : string)
    (body : PostBody) : Handler :=
  authenticate auth (fun user db =>
    if negb (updateValid body) then (failure 400 "Validation failed", db)
    else
      match db !! id with
      | None => (failure 404 "Post not found", db)
      | Some post =>
          let isAuthor := String.eqb (author post) (user_id user) in
          let isAdmin := isAdmin user in
          if negb isAuthor && negb isAdmin then
            (failure 403 "Access denied. You can only update your own posts.",
             db)
          else
            match findByIdAndUpdate now id body db with
            | Return (updatedPost, db') =>
                (success 200 "Post updated successfully" updatedPost, db')
            | Throw m => (failure 400 m, db)
            end
      end).

(** [new Post({...})] of the create handler: the listed keys of the body,
    the requester as author, the schema defaults elsewhere. *)
Definition newPost (now : Z) (user : User) (body : PostBody) : Post :=
  {| title := Js.trim (default "" (b_title body));
     content := default "" (b_content body);
     author := user_id user;
     category := default "" (b_category body);
     slug := Js.trim (toLowerCase (default "" (b_slug body)));
     excerpt := b_excerpt body;
     featuredImage := b_featuredImage body;
     tags := map Js.trim (default [] (b_tags body));
     status := default "draft" (b_status body);
     isPublished := false;
     publishedAt := None;
     isApproved := false;
     approvedBy := None;
     approvedAt := None;
     rejectionReason := None;
     submittedForApproval := false;
     submittedAt := None;
     viewCount := 0;
     likeCount := 0;
     commentCount := 0;
     seo := default (mkSeo None None []) (b_seo body);
     createdAt := now;
     updatedAt := now |}.

(** [post.save()] on a new document: every path is validated, the hook
    runs, and the document is inserted under the fresh id [newId]; an id
    already in use is a duplicate-key error. *)
Definition saveNew (now : Z) (newId : string) (p : Post)
    (db : gmap string Post) : Exc (Post * gmap string Post) :=
  if negb (validatePaths allPaths p) then Throw "ValidationError"
  else
    match db !! newId with
    | Some _ => Throw "_id already exists"
    | None =>
        let p := preSave now p in
        Return (p, <[newId := p]> db)
    end.

(** [POST /api/posts]; [newId] is the ObjectId the driver generates. *)
Definition createRoute (now : Z) (auth : Auth) (newId : string)
    (body : PostBody) : Handler :=
  authenticate auth (fun user db =>
    if negb (createValid body) then (failure 400 "Validation failed", db)
    else if findBySlug (default "" (b_slug body)) db then
      (failure 400 "Slug already exists", db)
    else
      orError (saveNew now newId (newPost now user body) db)
        (fun p => success 201 "Post created successfully" (Some p)) db).

(** [DELETE /api/posts/:id] *)
Definition deleteRoute (auth : Auth) (id : string) : Handler :=
  authenticate auth (fun user db =>
    match db !! id with
    | None => (failure 404 "Post not found", db)
    | Some post =>
        let isAuthor := String.eqb (author post) (user_id user) in
        let isAdmin := isAdmin user in
        if negb isAuthor && negb isAdmin then
          (failure 403 "Access denied. You can only delete your own posts.",
           db)
        else (success 200 "Post deleted successfully" None, delete id db)
    end).

(** [POST /api/posts/:id/like]; [hasLiked] is the constant [false]. *)
Definition likeRoute (now : Z) (auth : Auth) (id : string) : Handler :=
  authenticate auth (fun user db =>
    match db !! id with
    | None => (failure 404 "Post not found", db)
    | Some post =>
        orError (incrementLikeCount now id post db)
          (fun p => success 200 "Post liked" None) db
    end).

(** [GET /api/posts/:id]: a published post gets one more view. *)
Definition getRoute (now : Z) (id : string) : Handler :=
  fun db =>
    match db !! id with
    | None => (failure 404 "Post not found", db)
    | Some post =>
        if String.eqb (status post) "published" then
          orError (incrementViewCount now id post db)
            (fun p => success 200 "" (Some p)) db
        else (success 200 "" (Some post), db)
    end.

(** ** The API as a transition system *)

(** One request that can write to the collection of posts. *)
Inductive ApiOp :=
| Get (id : string)
| Create (auth : Auth) (newId : string) (body : PostBody)
| Update (auth : Auth) (id : string) (body : PostBody)
| Delete (auth : Auth) (id : string)
| Like (auth : Auth) (id : string)
| Submit (auth : Auth) (id : string)
| Approve (auth : Auth) (id : string)
| Reject (auth : Auth) (id : string) (reason : option string).

(** The handler of a request received at time [now]. *)
Definition handle (now : Z) (op : ApiOp) : Handler :=
  match op with
  | Get id => getRoute now id
  | Create auth newId body => createRoute now auth newId body
  | Update auth id body => updateRoute now auth id body
  | Delete auth id => deleteRoute auth id
  | Like auth id => likeRoute now auth id
  | Submit auth id => submitRoute now auth id
  | Approve auth id => approveRoute now auth id
  | Reject auth id reason => rejectRoute now auth id reason
  end.

Definition step (req : Z * ApiOp) (db : gmap string Post) : gmap string Post :=
  snd (handle (fst req) (snd req) db).

(** The collections a sequence of timed requests goes through, the
    starting one first. *)
Fixpoint trace (reqs : list (Z * ApiOp)) (db : gmap string Post)
    : list (gmap string Post) :=
  match reqs with
  | [] => [db]
  | req :: rest => db :: trace rest (step req db)
  end.

(** The collection after the whole sequence. *)
Definition run (reqs : list (Z * ApiOp)) (db : gmap string Post)
    : gmap string Post :=
  fold_left (fun db req => step req db) reqs db.

(** The status of post [id], if it exists. *)
Definition statusOf (id : string) (db : gmap string Post) : option string :=
  status <$> db !! id.


(** What one request may do to one document ([p] before, [p'] after):
    the transition table of the post lifecycle, with the two fields the
    update body can overwrite. *)
Definition docChange (op : ApiOp) (p p' : Post) : Prop :=
  match op with
  | Get _ | Like _ _ => status p' = status p /\ author p' = author p
  | Submit _ _ =>
      status p = "draft" /\ status p' = "pending" /\ author p' = author p
  | Approve _ _ =>
      status p = "pending" /\ status p' = "published" /\ author p' = author p
  | Reject _ _ _ =>
      status p = "pending" /\ status p' = "rejected" /\ author p' = author p
  | Update _ _ body =>
      status p' = default (status p) (b_status body) /\
      author p' = default (author p) (b_author body)
  | Create _ _ _ | Delete _ _ => False
  end.

(** The document a request brings into existence. *)
Definition docCreated (op : ApiOp) (p' : Post) : Prop :=
  match op with
  | Create _ _ body => status p' = default "draft" (b_status body)
  | _ => False
  end.

(** The request carries [status: 'published'] in a create or update
    body. *)
Definition publishesDirectly (op : ApiOp) : bool :=
  match op with
  | Create _ _ body | Update _ _ body =>
      match b_status body with
      | Some s => String.eqb s "published"
      | None => false
      end
  | _ => false
  end.

(** The request is a create or an update whose body has a [status]
    key. *)
Definition carriesStatus (op : ApiOp) : bool :=
  match op with
  | Create _ _ body | Update _ _ body => negb (isNull (b_status body))
  | _ => false
  end.

(** The request is an update whose body has an [author] key. *)
Definition rewritesAuthor (op : ApiOp) : bool :=
  match op with
  | Update _ _ body => negb (isNull (b_author body))
  | _ => false
  end.


(** The four things a handler can do to the collection. *)
Definition Effect (op : ApiOp) (db db' : gmap string Post) : Prop :=
  db' = db \/
  (exists id p p',
     db !! id = Some p /\ db' = <[id := p']> db /\ docChange op p p') \/
  (exists id p',
     db !! id = None /\ db' = <[id := p']> db /\ docCreated op p') \/
  (exists id, db' = delete id db).


(* ===================================================================== *)
(** * routes/posts.js: listing with pagination *)
(* ===================================================================== *)

Record Pagination := mkPagination {
  currentPage : Z;
  totalPages : Z;
  totalItems : Z;
  itemsPerPage : Z;
  hasNextPage : bool;
  hasPrevPage : bool
}.

(** [Math.ceil(total / limitNum)] for a count [total] and a limit of at
    least 1, where the quotient of the two numbers is exact enough for
    the rounding to be the integer ceiling. *)
Definition ceilDiv (total limitNum : Z) : Z :=
  if (total mod limitNum =? 0)%Z then (total / limitNum)%Z
  else (total / limitNum + 1)%Z.

(** The part the three list handlers share.  [page] and [limit] are the
    query parameters, read as the decimal numerals they are (on those
    [parseInt] and the numeric comparison agree); [matching] is what
    [find(query).sort(sort)] yields before [skip] and [limit], so that
    [countDocuments(query)] is its length. *)
Definition paginate (page limit : Z) (matching : list Post)
    : list Post * Pagination :=
  let skip := ((page - 1) * limit)%Z in
  let limitNum := limit in
  let posts := firstn (Z.to_nat limitNum) (skipn (Z.to_nat skip) matching) in
  let total := Z.of_nat (List.length matching) in
  let totalPages := ceilDiv total limitNum in
  let hasNextPage := (page <? totalPages)%Z in
  let hasPrevPage := (1 <? page)%Z in
  (posts,
   {| currentPage := page;
      totalPages := totalPages;
      totalItems := total;
      itemsPerPage := limitNum;
      hasNextPage := hasNextPage;
      hasPrevPage := hasPrevPage |}).

(** The filters of the query string; an absent or empty one filters
    nothing. *)
Record ListQuery := mkListQuery {
  q_status : option string;
  q_category : option string;
  q_author : option string;
  q_search : option string
}.

Section Listing.

(** The store's [$text] operator. *)
Variable textSearch : string -> Post -> bool.

(** A filter that applies only when its parameter is truthy. *)
Definition filterOn (param : option string) (test : string -> bool) : bool :=
  if truthyOpt param then test (default "" param) else true.

Definition matchesQuery (q : ListQuery) (p : Post) : bool :=
  filterOn (q_status q) (String.eqb (status p)) &&
  filterOn (q_category q) (String.eqb (category p)) &&
  filterOn (q_author q) (String.eqb (author p)) &&
  filterOn (q_search q) (fun s => textSearch s p).

(** [GET /api/posts]; [status] defaults to ['published'].  [docs] is the
    collection in the order the sort parameters ask for. *)
Definition listRoute (page limit : Z) (query : ListQuery) (docs : list Post) :=
  let query :=
    mkListQuery (Some (default "published" (q_status query)))
      (q_category query) (q_author query) (q_search query) in
  paginate page limit (List.filter (fun p => matchesQuery query p) docs).

End Listing.

(** [GET /api/posts/my-posts] *)
Definition myPostsRoute (user : User) (page limit : Z)
    (statusParam : option string) (docs : list Post) :=
  paginate page limit
    (List.filter (fun p => String.eqb (author p) (user_id user) &&
                      filterOn statusParam (String.eqb (status p)))
       docs).

(** [GET /api/posts/pending/approval] *)
Definition pendingRoute (page limit : Z) (docs : list Post) :=
  paginate page limit
    (List.filter (fun p => String.eqb (status p) "pending" &&
                      submittedForApproval p)
       docs).

(* ===================================================================== *)
(** * utils/auth.js: tokens *)
(* ===================================================================== *)

(** The claims of a token.  A key whose value is [undefined] is left out
    of the JSON payload, hence the options. *)
Record Claims := mkClaims {
  c_id : option string;
  c_username : option string;
  c_email : option string;
  c_role : option string;
  c_iat : Z;
  c_exp : option Z;
  c_iss : option string;
  c_aud : option string
}.

(** A string handed to [jwt.verify]: not of the three-part form, or a
    header algorithm, claims and a signature. *)
Inductive Token :=
| Malformed (raw : string)
| Signed (alg : string) (claims : Claims) (signature : string).

Section Tokens.

(** The keyed hash of the signing library, over the header algorithm and
    the claims it signs. *)
Variable hmac : string -> string -> Claims -> string.

(** [process.env.JWT_SECRET || 'your-secret-key'], and
    [process.env.JWT_EXPIRES_IN || '7d'] in seconds. *)
Variable JWT_SECRET : string.
Variable JWT_EXPIRES_IN : Z.

(** [jwt.sign(payload, secret, { expiresIn, issuer, audience })] at clock
    time [now]: the library stamps [iat], [exp], [iss] and [aud] and
    signs with HS256. *)
Definition jwt_sign (payload : Claims) (secret : string) (expiresIn : Z)
    (issuer audience : string) (now : Z) : Token :=
  let claims :=
    {| c_id := c_id payload;
       c_username := c_username payload;
       c_email := c_email payload;
       c_role := c_role payload;
       c_iat := now;
       c_exp := Some (now + expiresIn)%Z;
       c_iss := Some issuer;
       c_aud := Some audience |} in
  Signed "HS256" claims (hmac secret "HS256" claims).

(** [jwt.verify(token, secret)] at clock time [now], with no option: the
    form, the algorithm, the signature and the expiry are checked, in
    that order. *)
Definition jwt_verify (token : Token) (secret : string) (now : Z)
    : Exc Claims :=
  match token with
  | Malformed _ => Throw "jwt malformed"
  | Signed alg claims signature =>
      if negb (includes ["HS256"; "HS384"; "HS512"] alg) then
        Throw "invalid algorithm"
      else if negb (String.eqb signature (hmac secret alg claims)) then
        Throw "invalid signature"
      else
        match c_exp claims with
        | Some exp => if (exp <=? now)%Z then Throw "jwt expired"
                      else Return claims
        | None => Return claims
        end
  end.

(** [generateToken]; reading [user._id] of a missing user throws inside
    the [try]. *)
Definition generateToken (now : Z) (user : option User) : Exc Token :=
  match user with
  | None => Throw "Failed to generate authentication token"
  | Some user =>
      let payload :=
        {| c_id := Some (user_id user);
           c_username := Some (username user);
           c_email := Some (email user);
           c_role := role user;
           c_iat := 0;
           c_exp := None;
           c_iss := None;
           c_aud := None |} in
      Return (jwt_sign payload JWT_SECRET JWT_EXPIRES_IN
                "mern-testing-app" "mern-testing-users" now)
  end.

(** [verifyToken] *)
Definition verifyToken (now : Z) (token : Token) : Exc Claims :=
  match jwt_verify token JWT_SECRET now with
  | Return decoded => Return decoded
  | Throw _ => Throw "Invalid or expired token"
  end.

End Tokens.

(* ===================================================================== *)
(** * Sample data *)
(* ===================================================================== *)

(** ObjectIds of two users, an admin, a category and a post. *)
Definition annId : string := "64a1f0c2e4b0a1b2c3d4e5f1".
Definition bobId : string := "64a1f0c2e4b0a1b2c3d4e5f2".
Definition rootId : string := "64a1f0c2e4b0a1b2c3d4e5f3".
Definition catId : string := "64a1f0c2e4b0a1b2c3d4e5f4".
Definition post1 : string := "64a1f0c2e4b0a1b2c3d4e5f5".

Definition ann : User :=
  mkUser annId "ann" "ann@example.com" (Some "user") true.

Definition root : User :=
  mkUser rootId "root" "root@example.com" (Some "admin") true.

(** A draft of ann's, the same post once submitted, and the collections
    that hold the one or the other. *)
Definition draft1 : Post :=
  mkPost "A title" "Some content" annId catId "a-title" None None []
    "draft" false None false None None None false None 0 0 0
    (mkSeo None None []) 1 1.

Definition pending1 : Post :=
  mkPost "A title" "Some content" annId catId "a-title" None None []
    "pending" false None false None None None true (Some 5%Z) 0 0 0
    (mkSeo None None []) 1 5.

Definition db1 : gmap string Post := {[ post1 := draft1 ]}.

Definition dbPending : gmap string Post := {[ post1 := pending1 ]}.

(** A create body that asks for [status: 'published']. *)
Definition post2 : string := "64a1f0c2e4b0a1b2c3d4e5f6".

Definition createBody : PostBody :=
  mkBody (Some "Second") (Some "More content") None (Some catId)
    (Some "second") None None None (Some "published") None
    None None None None None None None None None None None.

(** Update bodies with one key: [status: 'published'], and [author]. *)
Definition publishBody : PostBody :=
  mkBody None None None None None None None None (Some "published") None
    None None None None None None None None None None None.

Definition authorBody : PostBody :=
  mkBody None None (Some bobId) None None None None None None None
    None None None None None None None None None None None.

(* ===================================================================== *)
(** * Further code of the same files *)
(* ===================================================================== *)

(** ** Requests by their credentials and target *)

(** What [authenticate] finds for a request; [GET /api/posts/:id] is
    public and has none. *)
Definition authOf (op : ApiOp) : option Auth :=
  match op with
  | Get _ => None
  | Create auth _ _ | Update auth _ _ | Delete auth _ | Like auth _
  | Submit auth _ | Approve auth _ | Reject auth _ _ => Some auth
  end.

(** The three endpoints of the approval workflow, with the post they
    address. *)
Definition lifecycleTarget (op : ApiOp) : option string :=
  match op with
  | Submit _ id | Approve _ id | Reject _ id _ => Some id
  | _ => None
  end.


(** No two documents of the collection share a slug: what the schema's
    unique index on [slug] asks for. *)
Definition uniqueSlugs (db : gmap string Post) : Prop :=
  forall i j p q,
    db !! i = Some p -> db !! j = Some q -> slug p = slug q -> i = j.

(** ** More sample data *)

Definition bob : User :=
  mkUser bobId "bob" "bob@example.com" (Some "user") true.

Definition rejected1 : Post :=
  mkPost "A title" "Some content" annId catId "a-title" None None []
    "rejected" false None false (Some rootId) (Some 7%Z)
    (Some "Needs more detail on X") true (Some 5%Z) 0 0 0
    (mkSeo None None []) 1 7.

Definition dbRejected : gmap string Post := {[ post1 := rejected1 ]}.


(** A post set to published by an update: no date, no approval. *)
Definition publishedByUpdate : Post := set_status "published" draft1.



(** ** models/Post.js: the other methods, the virtual and the statics *)




(** [s.split(sep).length]: one more than the occurrences of [sep]. *)
Fixpoint splitCount (sep : ascii) (s : string) : nat :=
  match s with
  | EmptyString => 1
  | String c rest =>
      if Ascii.eqb c sep then S (splitCount sep rest) else splitCount sep rest
  end.

(** The virtual [readingTime]:
    [Math.ceil(this.content.split(' ').length / 200)]. *)
Definition readingTime (this : Post) : Z :=
  let wordCount := Z.of_nat (splitCount " " (content this)) in
  ceilDiv wordCount 200.






(* ===================================================================== *)
(** * From the request header to the user *)
(* ===================================================================== *)

(** [extractTokenFromHeader]; the argument is [req.headers.authorization],
    [None] when the header is absent.  [substring(7)] is the rest of the
    header after its first seven characters. *)
Definition extractTokenFromHeader (authorization : option string)
    : option string :=
  match authorization with
  | None => None
  | Some authHeader =>
      if negb (Js.truthy (Js.Str authHeader)) ||
         negb (String.prefix "Bearer " authHeader)
      then None
      else Some (String.substring 7 (String.length authHeader - 7) authHeader)
  end.

Section CurrentUser.

Variable hmac : string -> string -> Claims -> string.
Variable JWT_SECRET : string.

(** [getCurrentUser]: [User.findById(decoded.id)] on the collection of
    users; a token that does not verify, an id that is not there and a
    user that is not active all give [null]. *)
Definition getCurrentUser (now : Z) (users : gmap string User) (token : Token)
    : option User :=
  match verifyToken hmac JWT_SECRET now token with
  | Throw _ => None
  | Return decoded =>
      match c_id decoded ≫= (fun id => users !! id) with
      | None => None
      | Some user => if negb (isActive user) then None else Some user
      end
  end.

End CurrentUser.

(* ===================================================================== *)
(** * routes/users.js: administration of users *)
(* ===================================================================== *)














(* ===================================================================== *)
(** * Slugs made from names and titles *)
(* ===================================================================== *)

(** [s.replace(/[cls]+/g, '-')]: every maximal run of characters of the
    class becomes one hyphen.  [inRun] tells that the character before
    belonged to a run, whose hyphen is already out. *)
Fixpoint replaceRuns (cls : ascii -> bool) (inRun : bool) (s : string)
    : string :=
  match s with
  | EmptyString => EmptyString
  | String c rest =>
      if cls c then
        if inRun then replaceRuns cls true rest
        else String "-" (replaceRuns cls true rest)
      else String c (replaceRuns cls false rest)
  end.

(** [[a-z0-9]] *)
Definition alnumClass (c : ascii) : bool := Js.lowerClass c || Js.digitClass c.

Definition hyphen (c : ascii) : bool := (Js.code c =? 45)%nat.

(** [s.replace(/(^-|-$)/g, '')]: a hyphen at the start goes, and one at
    the end. *)
Definition stripLeadingHyphen (s : string) : string :=
  match s with
  | String c rest => if hyphen c then rest else s
  | EmptyString => EmptyString
  end.

Fixpoint stripTrailingHyphen (s : string) : string :=
  match s with
  | EmptyString => EmptyString
  | String c EmptyString => if hyphen c then EmptyString else s
  | String c rest => String c (stripTrailingHyphen rest)
  end.

(** The slug the pre-save hook of [Category] makes of a name. *)
Definition categorySlug (name : string) : string :=
  stripTrailingHyphen
    (stripLeadingHyphen
       (replaceRuns (fun c => negb (alnumClass c)) false (toLowerCase name))).

(** [s.replace(/[^a-z0-9\s-]/g, '')] *)
Fixpoint removeSpecial (s : string) : string :=
  match s with
  | EmptyString => EmptyString
  | String c rest =>
      if alnumClass c || Js.whitespace c || hyphen c
      then String c (removeSpecial rest) else removeSpecial rest
  end.

(** [CreatePost.jsx]: the slug the form makes of a title.  [trim] takes
    no argument, so the ['-'] handed to it changes nothing and white
    space is what it trims. *)
Definition baseSlug (title : string) : string :=
  Js.trim
    (replaceRuns hyphen false
       (replaceRuns Js.whitespace false
          (removeSpecial (toLowerCase title)))).

(** [`${baseSlug}-${timestamp}`], with the decimal numeral of
    [Date.now()]. *)
Definition clientSlug (title timestamp : string) : string :=
  baseSlug title ++ "-" ++ timestamp.






(** Every character is of [[a-z0-9]] or a hyphen and no hyphen follows a
    hyphen; with [afterHyphen] the start counts as following one. *)
Fixpoint hyphensApart (afterHyphen : bool) (s : string) : bool :=
  match s with
  | EmptyString => true
  | String c rest =>
      if hyphen c then negb afterHyphen && hyphensApart true rest
      else alnumClass c && hyphensApart false rest
  end.

Fixpoint endsWithHyphen (s : string) : bool :=
  match s with
  | EmptyString => false
  | String c EmptyString => hyphen c
  | String c rest => endsWithHyphen rest
  end.


(* ===================================================================== *)
(** * Results *)
(* ===================================================================== *)

Lemma dotStarThen_contains cls s :
  Js.dotStarThen cls s = true -> containsClass cls s = true.
Proof.
  induction s as [|c rest IH]; simpl; [done|].
  destruct (cls c); simpl; [done|].
  intros H. apply andb_true_iff in H as [_ H]. auto.
Qed.

(** The unanchored look-ahead test is the plain "some character is in the
    class" test: line terminators do not matter because the search may
    start at the character itself. *)
Lemma lookaheadSearch_contains cls s :
  Js.lookaheadSearch cls s = containsClass cls s.
Proof.
  induction s as [|c rest IH]; simpl; [done|].
  rewrite IH. destruct (cls c); simpl; [done|].
  destruct (containsClass cls rest) eqn:E.
  - by rewrite orb_true_r.
  - rewrite orb_false_r.
    destruct (Js.dotStarThen cls rest) eqn:D; [|by rewrite andb_false_r].
    apply dotStarThen_contains in D. congruence.
Qed.

Lemma test_contains cls s : Js.test cls (Js.Str s) = containsClass cls s.
Proof. apply lookaheadSearch_contains. Qed.

Lemma tooShort_Str s : tooShort (Js.Str s) = (String.length s <? 8)%nat.
Proof.
  unfold tooShort. destruct s as [|c rest]; simpl; [done|].
  reflexivity.
Qed.

(** The error list of a string password, rule by rule, in source order. *)
Lemma validatePasswordStrength_errors s :
  errors (validatePasswordStrength (Js.Str s)) =
    (if (String.length s <? 8)%nat then [msgLength] else []) ++
    (if containsClass Js.lowerClass s then [] else [msgLower]) ++
    (if containsClass Js.upperClass s then [] else [msgUpper]) ++
    (if containsClass Js.digitClass s then [] else [msgDigit]) ++
    (if containsClass Js.specialClass s then [] else [msgSpecial]).
Proof.
  unfold validatePasswordStrength. cbn [errors].
  rewrite !test_contains, tooShort_Str. unfold pushIf.
  destruct (String.length s <? 8)%nat, (containsClass Js.lowerClass s),
    (containsClass Js.upperClass s), (containsClass Js.digitClass s),
    (containsClass Js.specialClass s); reflexivity.
Qed.

Lemma isValid_errors v :
  isValid (validatePasswordStrength v) = true <->
  errors (validatePasswordStrength v) = [].
Proof.
  unfold validatePasswordStrength. cbn [isValid errors].
  match goal with |- (List.length ?l =? 0)%nat = true <-> _ => generalize l end.
  intros l. rewrite Nat.eqb_eq. destruct l; simpl; split; intros H; done.
Qed.

(** C6.  A string password that meets the five strength rules (at least 8
    characters, a lowercase letter, an uppercase letter, a digit, one of
    [@$!%*?&]) is valid with no error; and for every string password each
    rule's message is in the error list exactly when that rule is
    violated, whatever the other rules say. *)
Theorem validatePasswordStrength_rules (s : string) :
  let r := validatePasswordStrength (Js.Str s) in
  ((8 <= String.length s)%nat ->
   containsClass Js.lowerClass s = true ->
   containsClass Js.upperClass s = true ->
   containsClass Js.digitClass s = true ->
   containsClass Js.specialClass s = true ->
   isValid r = true /\ errors r = []) /\
  (In msgLength (errors r) <-> (String.length s < 8)%nat) /\
  (In msgLower (errors r) <-> containsClass Js.lowerClass s = false) /\
  (In msgUpper (errors r) <-> containsClass Js.upperClass s = false) /\
  (In msgDigit (errors r) <-> containsClass Js.digitClass s = false) /\
  (In msgSpecial (errors r) <-> containsClass Js.specialClass s = false).
Proof.
  intros r. split.
  - intros Hlen Hl Hu Hd Hs.
    assert (E : errors r = []).
    { subst r. rewrite validatePasswordStrength_errors, Hl, Hu, Hd, Hs.
      apply Nat.ltb_ge in Hlen. by rewrite Hlen. }
    split; [by apply isValid_errors | exact E].
  - subst r. rewrite validatePasswordStrength_errors.
    rewrite <- Nat.ltb_lt.
    destruct (String.length s <? 8)%nat, (containsClass Js.lowerClass s),
      (containsClass Js.upperClass s), (containsClass Js.digitClass s),
      (containsClass Js.specialClass s);
      cbn; repeat split; intros H; try discriminate H; try reflexivity;
      try (repeat (destruct H as [H|H]; [discriminate H|]); destruct H);
      repeat first [left; reflexivity | right].
Qed.

Lemma validatePasswordStrength_rules_witness :
  validatePasswordStrength (Js.Str "StrongPass123!") =
    {| isValid := true; errors := [] |} /\
  In msgUpper (errors (validatePasswordStrength (Js.Str "strongpass"))).
Proof.
  split.
  - destruct (validatePasswordStrength_rules "StrongPass123!") as [H _].
    destruct (H ltac:(simpl; lia) eq_refl eq_refl eq_refl eq_refl) as [H1 H2].
    destruct (validatePasswordStrength (Js.Str "StrongPass123!")).
    simpl in *. by subst.
  - destruct (validatePasswordStrength_rules "strongpass")
      as (_ & _ & _ & H & _).
    apply H. reflexivity.
Defined.

(** What the function returns on [null], [undefined] and the empty
    string.  On the first two the tests run on the texts "null" and
    "undefined", which hold lowercase letters. *)
Example validatePasswordStrength_null :
  validatePasswordStrength Js.Null =
    {| isValid := false;
       errors := [msgLength; msgUpper; msgDigit; msgSpecial] |}.
Proof. reflexivity. Qed.

Example validatePasswordStrength_undefined :
  validatePasswordStrength Js.Undefined =
    {| isValid := false;
       errors := [msgLength; msgUpper; msgDigit; msgSpecial] |}.
Proof. reflexivity. Qed.

Example validatePasswordStrength_empty :
  validatePasswordStrength (Js.Str "") =
    {| isValid := false;
       errors := [msgLength; msgLower; msgUpper; msgDigit; msgSpecial] |}.
Proof. reflexivity. Qed.


Lemma includes_In roles r : includes roles r = true <-> In r roles.
Proof.
  unfold includes. rewrite existsb_exists. split.
  - intros (x & Hx & E). apply String.eqb_eq in E. by subst.
  - intros H. exists r. split; [done | apply String.eqb_refl].
Qed.

Lemma truthy_Str s : Js.truthy (Js.Str s) = true <-> s <> "".
Proof.
  simpl. rewrite negb_true_iff. split.
  - intros H ->. discriminate H.
  - intros H. destruct (String.eqb_spec s ""); done.
Qed.

(** C9, as amended.  [hasRole] is true exactly when the principal exists,
    has a role attribute that is not the empty string, and that role is
    among the required ones; it is false when the principal or the role
    attribute is missing. *)
Theorem hasRole_spec (user : option User) (requiredRoles : RequiredRoles) :
  (hasRole user requiredRoles = true <->
   exists u r, user = Some u /\ role u = Some r /\ r <> "" /\
               In r (rolesOf requiredRoles)) /\
  (user = None \/ (exists u, user = Some u /\ role u = None) ->
   hasRole user requiredRoles = false).
Proof.
  split.
  - unfold hasRole. destruct user as [u|].
    + destruct (role u) as [r|] eqn:Er.
      * destruct (Js.truthy (Js.Str r)) eqn:T; cbn [negb].
        -- apply truthy_Str in T. rewrite includes_In. split.
           ++ intros H. exists u, r. done.
           ++ intros (u' & r' & [= <-] & E & _ & H). congruence.
        -- split; [done|]. intros (u' & r' & [= <-] & E & N & _).
           apply truthy_Str in N. congruence.
      * split; [done|]. intros (u' & r' & [= <-] & E & _). congruence.
    + split; [done|]. intros (u' & r' & E & _). done.
  - intros [-> | (u & -> & E)]; unfold hasRole; [done|]. by rewrite E.
Qed.

Lemma hasRole_spec_witness :
  hasRole (Some (mkUser annId "ann" "ann@example.com" (Some "moderator") true))
          (RoleArray ["admin"; "moderator"]) = true /\
  hasRole None (OneRole "admin") = false.
Proof.
  split.
  - apply (hasRole_spec _ _). eexists _, _.
    repeat split; [done | simpl; auto].
  - apply (hasRole_spec None (OneRole "admin")). by left.
Defined.

(** C9 as first stated fails: a principal whose role attribute
    is the empty string has a role attribute, and that attribute is a
    member of the required roles [[""]], yet the answer is false. *)
Lemma hasRole_empty_role_counterexample :
  let u := mkUser annId "ann" "ann@example.com" (Some "") true in
  hasRole (Some u) (RoleArray [""]) = false /\
  (exists r, role u = Some r /\ In r (rolesOf (RoleArray [""]))) /\
  ~ (hasRole (Some u) (RoleArray [""]) = true <->
     exists u' r, Some u = Some u' /\ role u' = Some r /\
                  In r (rolesOf (RoleArray [""]))).
Proof.
  intros u. split; [reflexivity|]. split.
  - exists "". simpl. auto.
  - intros [_ H]. assert (E : hasRole (Some u) (RoleArray [""]) = true).
    { apply H. exists u, "". simpl. auto. }
    discriminate E.
Qed.

(* --------------------------------------------------------------------- *)
(** ** The lifecycle endpoints *)
(* --------------------------------------------------------------------- *)

Lemma hasRole_admin (u : User) :
  role u = Some "admin" -> hasRole (Some u) (RoleArray ["admin"]) = true.
Proof. intros H. unfold hasRole. by rewrite H. Qed.

(** Unfold a route down to the branch on the document. *)
Ltac route :=
  unfold approveRoute, rejectRoute, submitRoute, authenticate, authorize,
    respond, orError.

(** What each statement of the pre-save hook does to the lifecycle
    fields. *)
Lemma hookExcerpt_frame p :
  let q := hookExcerpt p in
  status q = status p /\
  author q = author p /\
  isApproved q = isApproved p /\
  approvedBy q = approvedBy p /\
  approvedAt q = approvedAt p /\
  rejectionReason q = rejectionReason p /\
  publishedAt q = publishedAt p /\
  isPublished q = isPublished p /\
  submittedForApproval q = submittedForApproval p /\
  submittedAt q = submittedAt p.
Proof. unfold hookExcerpt. destruct (_ && _); cbn; repeat split. Qed.

Lemma hookPublished_frame now p :
  let q := hookPublished now p in
  status q = status p /\
  author q = author p /\
  isApproved q = isApproved p /\
  approvedBy q = approvedBy p /\
  approvedAt q = approvedAt p /\
  rejectionReason q = rejectionReason p /\
  publishedAt q =
    (if String.eqb (status p) "published" && isNull (publishedAt p)
     then Some now else publishedAt p) /\
  isPublished q =
    (if String.eqb (status p) "published" && isNull (publishedAt p)
     then true else isPublished p) /\
  submittedForApproval q = submittedForApproval p /\
  submittedAt q = submittedAt p.
Proof. unfold hookPublished. destruct (_ && _); cbn; repeat split. Qed.

Lemma hookPending_frame now p :
  let q := hookPending now p in
  status q = status p /\
  author q = author p /\
  isApproved q = isApproved p /\
  approvedBy q = approvedBy p /\
  approvedAt q = approvedAt p /\
  rejectionReason q = rejectionReason p /\
  publishedAt q = publishedAt p /\
  isPublished q = isPublished p /\
  submittedForApproval q =
    submittedForApproval p || String.eqb (status p) "pending" /\
  submittedAt q =
    (if String.eqb (status p) "pending" && negb (submittedForApproval p)
     then Some now else submittedAt p).
Proof.
  unfold hookPending.
  destruct (String.eqb (status p) "pending"), (submittedForApproval p) eqn:E;
    cbn; rewrite ?E; repeat split.
Qed.

Lemma hookApproved_frame p :
  let q := hookApproved p in
  status q = status p /\
  author q = author p /\
  isApproved q =
    isApproved p || String.eqb (status p) "published" /\
  approvedBy q = approvedBy p /\
  approvedAt q = approvedAt p /\
  rejectionReason q = rejectionReason p /\
  publishedAt q = publishedAt p /\
  isPublished q = isPublished p /\
  submittedForApproval q = submittedForApproval p /\
  submittedAt q = submittedAt p.
Proof.
  unfold hookApproved.
  destruct (String.eqb (status p) "published"), (isApproved p) eqn:E;
    cbn; rewrite ?E; repeat split.
Qed.

(** The hook as a whole. *)
Lemma preSave_frame now p :
  let q := preSave now p in
  status q = status p /\
  author q = author p /\
  isApproved q =
    isApproved p || String.eqb (status p) "published" /\
  approvedBy q = approvedBy p /\
  approvedAt q = approvedAt p /\
  rejectionReason q = rejectionReason p /\
  publishedAt q =
    (if String.eqb (status p) "published" && isNull (publishedAt p)
     then Some now else publishedAt p) /\
  isPublished q =
    (if String.eqb (status p) "published" && isNull (publishedAt p)
     then true else isPublished p) /\
  submittedForApproval q =
    submittedForApproval p || String.eqb (status p) "pending" /\
  submittedAt q =
    (if String.eqb (status p) "pending" && negb (submittedForApproval p)
     then Some now else submittedAt p).
Proof.
  cbv zeta. unfold preSave.
  pose proof (hookExcerpt_frame p) as H1.
  pose proof (hookPublished_frame now (hookExcerpt p)) as H2.
  pose proof (hookPending_frame now (hookPublished now (hookExcerpt p))) as H3.
  pose proof
    (hookApproved_frame (hookPending now (hookPublished now (hookExcerpt p))))
    as H4.
  cbv zeta in H1, H2, H3, H4.
  set (p1 := hookExcerpt p) in *. set (p2 := hookPublished now p1) in *.
  set (p3 := hookPending now p2) in *. set (p4 := hookApproved p3) in *.
  clearbody p1 p2 p3 p4.
  repeat match goal with H : _ /\ _ |- _ => destruct H end.
  repeat match goal with H : _ = _ |- _ => rewrite H end.
  repeat split.
Qed.

(** Reduce field reads of assigned documents, and nothing else. *)
Ltac fields :=
  cbn [
    title content author category slug excerpt featuredImage tags status
    isPublished publishedAt isApproved approvedBy approvedAt
    rejectionReason submittedForApproval submittedAt viewCount likeCount
    commentCount seo createdAt updatedAt set_title set_content set_author
    set_category set_slug set_excerpt set_featuredImage set_tags
    set_status set_isPublished set_publishedAt set_isApproved
    set_approvedBy set_approvedAt set_rejectionReason
    set_submittedForApproval set_submittedAt set_viewCount set_likeCount
    set_commentCount set_seo set_createdAt set_updatedAt statusCode
    message data success failure andb orb negb isNull String.eqb Ascii.eqb
    Bool.eqb].

Ltac fields_in H :=
  cbn [
    title content author category slug excerpt featuredImage tags status
    isPublished publishedAt isApproved approvedBy approvedAt
    rejectionReason submittedForApproval submittedAt viewCount likeCount
    commentCount seo createdAt updatedAt set_title set_content set_author
    set_category set_slug set_excerpt set_featuredImage set_tags
    set_status set_isPublished set_publishedAt set_isApproved
    set_approvedBy set_approvedAt set_rejectionReason
    set_submittedForApproval set_submittedAt set_viewCount set_likeCount
    set_commentCount set_seo set_createdAt set_updatedAt statusCode
    message data success failure andb orb negb isNull String.eqb Ascii.eqb
    Bool.eqb] in H.

(** Close the goal with a hypothesis of the very same text. *)
Ltac hyp := match goal with H : ?g |- ?g => exact H end.

(** Bring in what the hook does to [p], with the hooked document
    abstracted to a variable. *)
Ltac preSave_fields now p :=
  let H := fresh "H" in
  let q := fresh "saved" in
  pose proof (preSave_frame now p) as H; cbv zeta in H;
  revert H; generalize (preSave now p); intros q H;
  fields_in H;
  repeat match type of H with _ /\ _ => destruct H as [? H] end.

(** The [approve] method: it always saves, and the saved document has
    the approval fields set; the author is untouched. *)
Lemma approve_spec now id adminId (post : Post) (db : gmap string Post) :
  exists post',
    approve now id adminId post db = Return (post', <[id := post']> db) /\
    status post' = "published" /\
    isApproved post' = true /\
    approvedBy post' = Some adminId /\
    approvedAt post' = Some now /\
    publishedAt post' = Some now /\
    isPublished post' = true /\
    rejectionReason post' = None /\
    author post' = author post.
Proof.
  unfold approve, save. eexists. split; [reflexivity|].
  match goal with |- context [preSave now ?q] => preSave_fields now q end.
  fields. repeat apply conj; hyp.
Qed.




(** The [reject] method: with a reason of at most 500 characters it
    saves, and the saved document carries the rejection; a longer reason
    fails the schema's [maxlength] and nothing is written. *)
Lemma reject_spec now id adminId reason (post : Post) (db : gmap string Post) :
  (String.length reason <= 500)%nat ->
  exists post',
    reject now id adminId reason post db = Return (post', <[id := post']> db) /\
    status post' = "rejected" /\
    isApproved post' = false /\
    approvedBy post' = Some adminId /\
    approvedAt post' = Some now /\
    rejectionReason post' = Some reason /\
    author post' = author post.
Proof.
  intros Hlen. unfold reject, save.
  match goal with
  | |- context [validatePaths ?l ?q] =>
      replace (validatePaths l q) with (maxLength 500 reason)
        by (cbn; by rewrite andb_true_r)
  end.
  unfold maxLength. apply Nat.leb_le in Hlen. rewrite Hlen.
  eexists. split; [reflexivity|].
  match goal with |- context [preSave now ?q] => preSave_fields now q end.
  fields. repeat apply conj; hyp.
Qed.




Lemma trimStart_length s : (String.length (Js.trimStart s) <= String.length s)%nat.
Proof.
  induction s as [|c rest IH]; simpl; [lia|].
  destruct (Js.whitespace c); simpl; lia.
Qed.

Lemma trimEnd_length s : (String.length (Js.trimEnd s) <= String.length s)%nat.
Proof.
  induction s as [|c rest IH]; simpl; [lia|].
  destruct (Js.trimEnd rest); [destruct (Js.whitespace c)|]; simpl in *; lia.
Qed.

Lemma trim_length s : (String.length (Js.trim s) <= String.length s)%nat.
Proof.
  unfold Js.trim. pose proof (trimEnd_length (Js.trimStart s)).
  pose proof (trimStart_length s). lia.
Qed.

(** The reject route on a pending post with a valid reason: it stores the
    reason as the [trim] sanitizer left it. *)
Lemma rejectRoute_pending now admin id s (post : Post) (db : gmap string Post) :
  role admin = Some "admin" ->
  db !! id = Some post ->
  status post = "pending" ->
  (10 <= String.length s <= 500)%nat ->
  exists r post',
    rejectRoute now (Authenticated admin) id (Some s) db =
      (r, <[id := post']> db) /\
    statusCode r = 200%nat /\
    status post' = "rejected" /\
    isApproved post' = false /\
    approvedBy post' = Some (user_id admin) /\
    approvedAt post' = Some now /\
    rejectionReason post' = Some (Js.trim s).
Proof.
  intros Hadmin Hpost Hst [Hlo Hhi].
  assert (Hv : reasonValid (Some s) = true).
  { unfold reasonValid, lengthBetween. cbn [default].
    apply andb_true_iff. split; by apply Nat.leb_le. }
  assert (Ht : (String.length (Js.trim s) <= 500)%nat).
  { pose proof (trim_length s). lia. }
  destruct (reject_spec now id (user_id admin) (Js.trim s) post db Ht)
    as (post' & E & H1 & H2 & H3 & H4 & H5 & _).
  exists (success 200 "Post rejected successfully" (Some post')), post'.
  split; [|auto 10].
  transitivity
    (orError (reject now id (user_id admin) (Js.trim s) post db)
       (fun p => success 200 "Post rejected successfully" (Some p)) db).
  - route. rewrite (hasRole_admin _ Hadmin). cbn [negb]. rewrite Hv.
    cbn [negb]. rewrite Hpost, Hst. reflexivity.
  - unfold orError. by rewrite E.
Qed.

(** The [submitForApproval] method: it always saves, and the saved
    document is pending and marked submitted at the time of the call. *)
Lemma submitForApproval_spec now id (post : Post) (db : gmap string Post) :
  exists post',
    submitForApproval now id post db = Return (post', <[id := post']> db) /\
    status post' = "pending" /\
    submittedForApproval post' = true /\
    submittedAt post' = Some now /\
    author post' = author post.
Proof.
  unfold submitForApproval, save. eexists. split; [reflexivity|].
  match goal with |- context [preSave now ?q] => preSave_fields now q end.
  fields. repeat apply conj; hyp.
Qed.




(* --------------------------------------------------------------------- *)
(** ** Every request moves each document along the transition table *)
(* --------------------------------------------------------------------- *)

Lemma incrementLikeCount_spec now id (post : Post) (db : gmap string Post) :
  exists post',
    incrementLikeCount now id post db = Return (post', <[id := post']> db) /\
    status post' = status post /\ author post' = author post.
Proof.
  unfold incrementLikeCount, save. eexists. split; [reflexivity|].
  match goal with |- context [preSave now ?q] => preSave_fields now q end.
  fields. repeat apply conj; hyp.
Qed.

Lemma incrementViewCount_spec now id (post : Post) (db : gmap string Post) :
  exists post',
    incrementViewCount now id post db = Return (post', <[id := post']> db) /\
    status post' = status post /\ author post' = author post.
Proof.
  unfold incrementViewCount, save. eexists. split; [reflexivity|].
  match goal with |- context [preSave now ?q] => preSave_fields now q end.
  fields. repeat apply conj; hyp.
Qed.

Lemma status_setOpt {A} (set : A -> Post -> Post) o p :
  (forall v q, status (set v q) = status q) ->
  status (setOpt set o p) = status p.
Proof. intros H. destruct o; simpl; auto. Qed.

Lemma author_setOpt {A} (set : A -> Post -> Post) o p :
  (forall v q, author (set v q) = author q) ->
  author (setOpt set o p) = author p.
Proof. intros H. destruct o; simpl; auto. Qed.

Lemma applyBody_status body p :
  status (applyBody body p) = default (status p) (b_status body).
Proof.
  unfold applyBody. cbv zeta.
  repeat (rewrite status_setOpt by (intros; reflexivity)).
  destruct (b_status body) as [s|]; cbn [setOpt default].
  - reflexivity.
  - repeat (rewrite status_setOpt by (intros; reflexivity)). reflexivity.
Qed.

Lemma applyBody_author body p :
  author (applyBody body p) = default (author p) (b_author body).
Proof.
  unfold applyBody. cbv zeta.
  repeat (rewrite author_setOpt by (intros; reflexivity)).
  destruct (b_author body) as [s|]; cbn [setOpt default].
  - reflexivity.
  - repeat (rewrite author_setOpt by (intros; reflexivity)). reflexivity.
Qed.

Lemma reject_result now id adminId reason (post : Post) (db : gmap string Post) :
  reject now id adminId reason post db = Throw "ValidationError" \/
  exists post',
    reject now id adminId reason post db = Return (post', <[id := post']> db) /\
    status post' = "rejected" /\ author post' = author post.
Proof.
  destruct (Nat.leb_spec (String.length reason) 500) as [Hle|Hgt].
  - right. destruct (reject_spec now id adminId reason post db Hle)
      as (post' & E & H1 & _ & _ & _ & _ & H6). eauto.
  - left. unfold reject, save.
    match goal with
    | |- context [validatePaths ?l ?q] =>
        replace (validatePaths l q) with (maxLength 500 reason)
          by (cbn; by rewrite andb_true_r)
    end.
    unfold maxLength. apply Nat.leb_gt in Hgt. by rewrite Hgt.
Qed.

Lemma findByIdAndUpdate_result now id body (p : Post) (db : gmap string Post) :
  db !! id = Some p ->
  (exists m, findByIdAndUpdate now id body db = Throw m) \/
  exists p',
    findByIdAndUpdate now id body db = Return (Some p', <[id := p']> db) /\
    status p' = default (status p) (b_status body) /\
    author p' = default (author p) (b_author body).
Proof.
  intros Hp. unfold findByIdAndUpdate. rewrite Hp.
  destruct (negb (validatePaths (bodyPaths body) (applyBody body p)));
    [left; eauto|].
  destruct (negb (isNull (b_slug body)) &&
            slugTaken id (slug (applyBody body p)) db); [left; eauto|].
  right. eexists. split; [reflexivity|].
  split; [apply applyBody_status | apply applyBody_author].
Qed.

Lemma saveNew_result now newId (p : Post) (db : gmap string Post) :
  (exists m, saveNew now newId p db = Throw m) \/
  exists p',
    db !! newId = None /\
    saveNew now newId p db = Return (p', <[newId := p']> db) /\
    status p' = status p.
Proof.
  unfold saveNew. destruct (negb (validatePaths allPaths p)); [left; eauto|].
  destruct (db !! newId) eqn:E; [left; eauto|].
  right. eexists. split; [reflexivity|]. split; [reflexivity|].
  preSave_fields now p. hyp.
Qed.

Ltac stay := left; reflexivity.
Ltac moved id p p' := right; left; exists id, p, p'.

Lemma handle_effect now op (db : gmap string Post) :
  Effect op db (snd (handle now op db)).
Proof.
  destruct op as [id|auth newId body|auth id body|auth id|auth id|auth id
                 |auth id|auth id reason]; cbn [handle].
  - (* Get *)
    unfold getRoute. destruct (db !! id) as [p|] eqn:Hp; [|stay].
    destruct (String.eqb (status p) "published"); [|stay].
    destruct (incrementViewCount_spec now id p db) as (p' & E & H1 & H2).
    unfold orError. rewrite E. moved id p p'. done.
  - (* Create *)
    unfold createRoute, authenticate, respond. destruct auth as [| |user]; [stay..|].
    destruct (negb (createValid body)); [stay|].
    destruct (findBySlug (default "" (b_slug body)) db); [stay|].
    destruct (saveNew_result now newId (newPost now user body) db)
      as [(m & E) | (p' & Hn & E & H1)]; unfold orError; rewrite E; [stay|].
    right; right; left. exists newId, p'. done.
  - (* Update *)
    unfold updateRoute, authenticate, respond. destruct auth as [| |user]; [stay..|].
    destruct (negb (updateValid body)); [stay|].
    destruct (db !! id) as [p|] eqn:Hp; [|stay]. cbv zeta.
    destruct (negb (String.eqb (author p) (user_id user)) && negb (isAdmin user));
      [stay|].
    destruct (findByIdAndUpdate_result now id body p db Hp)
      as [(m & E) | (p' & E & H1 & H2)]; rewrite E; [stay|].
    moved id p p'. done.
  - (* Delete *)
    unfold deleteRoute, authenticate, respond. destruct auth as [| |user]; [stay..|].
    destruct (db !! id) as [p|] eqn:Hp; [|stay]. cbv zeta.
    destruct (negb (String.eqb (author p) (user_id user)) && negb (isAdmin user));
      [stay|].
    right; right; right. by exists id.
  - (* Like *)
    unfold likeRoute, authenticate, respond. destruct auth as [| |user]; [stay..|].
    destruct (db !! id) as [p|] eqn:Hp; [|stay].
    destruct (incrementLikeCount_spec now id p db) as (p' & E & H1 & H2).
    unfold orError. rewrite E. moved id p p'. done.
  - (* Submit *)
    route. destruct auth as [| |user]; [stay..|].
    destruct (db !! id) as [p|] eqn:Hp; [|stay].
    destruct (negb (String.eqb (author p) (user_id user))); [stay|].
    destruct (String.eqb_spec (status p) "draft") as [Hst|_]; [|stay].
    cbn [negb].
    destruct (submitForApproval_spec now id p db) as (p' & E & H1 & _ & _ & H4).
    rewrite E. moved id p p'. done.
  - (* Approve *)
    route. destruct auth as [| |user]; [stay..|].
    destruct (negb (hasRole (Some user) (RoleArray ["admin"]))); [stay|].
    destruct (db !! id) as [p|] eqn:Hp; [|stay].
    destruct (String.eqb_spec (status p) "pending") as [Hst|_]; [|stay].
    cbn [negb].
    destruct (approve_spec now id (user_id user) p db)
      as (p' & E & H1 & _ & _ & _ & _ & _ & _ & H8).
    rewrite E. moved id p p'. done.
  - (* Reject *)
    route. destruct auth as [| |user]; [stay..|].
    destruct (negb (hasRole (Some user) (RoleArray ["admin"]))); [stay|].
    destruct (negb (reasonValid reason)); [stay|].
    destruct (db !! id) as [p|] eqn:Hp; [|stay].
    destruct (String.eqb_spec (status p) "pending") as [Hst|_]; [|stay].
    cbn [negb].
    destruct (reject_result now id (user_id user) (Js.trim (default "" reason)) p db)
      as [E | (p' & E & H1 & H2)]; rewrite E; [stay|].
    moved id p p'. done.
Qed.

(** The same, seen from one document. *)
Lemma step_lookup req (db : gmap string Post) id :
  step req db !! id = db !! id \/
  step req db !! id = None \/
  (exists p p', db !! id = Some p /\ step req db !! id = Some p' /\
                docChange (snd req) p p') \/
  (exists p', db !! id = None /\ step req db !! id = Some p' /\
              docCreated (snd req) p').
Proof.
  unfold step.
  destruct (handle_effect (fst req) (snd req) db)
    as [E | [(i & p & p' & Hp & E & Hc) | [(i & p' & Hn & E & Hc) | (i & E)]]];
    rewrite E.
  - by left.
  - destruct (decide (i = id)) as [->|Hne].
    + right; right; left. exists p, p'. by rewrite lookup_insert_eq.
    + left. by rewrite lookup_insert_ne.
  - destruct (decide (i = id)) as [->|Hne].
    + right; right; right. exists p'. by rewrite lookup_insert_eq.
    + left. by rewrite lookup_insert_ne.
  - destruct (decide (i = id)) as [->|Hne].
    + right; left. by rewrite lookup_delete_eq.
    + left. by rewrite lookup_delete_ne.
Qed.

(** A request that carries no [status: 'published'] makes a post
    published only from pending. *)
Lemma step_published req (db : gmap string Post) id :
  publishesDirectly (snd req) = false ->
  statusOf id (step req db) = Some "published" ->
  statusOf id db = Some "published" \/ statusOf id db = Some "pending".
Proof.
  intros Hreq. unfold statusOf.
  destruct (step_lookup req db id)
    as [E | [E | [(p & p' & Hp & E & Hc) | (p' & Hn & E & Hc)]]];
    rewrite E; [by left | done | |].
  - rewrite Hp. cbn [fmap option_fmap option_map]. intros [= Hs].
    destruct req as [now op]. cbn [snd] in *.
    destruct op; cbn [docChange publishesDirectly] in *.
    + destruct Hc as [Hc _]. left. congruence.
    + done.
    + destruct Hc as [Hc _]. destruct (b_status body) as [s|]; cbn [default] in Hc.
      * apply String.eqb_neq in Hreq. simpl in Hc. congruence.
      * left. congruence.
    + done.
    + destruct Hc as [Hc _]. left. congruence.
    + destruct Hc as (_ & Hc & _). congruence.
    + destruct Hc as (Hc & _ & _). right. congruence.
    + destruct Hc as (_ & Hc & _). congruence.
  - cbn [fmap option_fmap option_map]. intros [= Hs].
    destruct req as [now op]. cbn [snd] in *.
    destruct op; cbn [docCreated publishesDirectly] in *; try done.
    destruct (b_status body) as [s|]; cbn [default] in Hc.
    + apply String.eqb_neq in Hreq. simpl in Hc. congruence.
    + congruence.
Qed.

(** The last collection of the trace is the one the run ends in. *)
Lemma trace_last (reqs : list (Z * ApiOp)) :
  forall db : gmap string Post, last (trace reqs db) = Some (run reqs db).
Proof.
  induction reqs as [|req rest IH]; intros db; [reflexivity|].
  cbn [trace run fold_left]. rewrite last_cons, IH. reflexivity.
Qed.

Lemma no_direct_publish_from (reqs : list (Z * ApiOp)) :
  forall (db : gmap string Post) id,
    statusOf id db <> Some "published" ->
    Forall (fun req => publishesDirectly (snd req) = false) reqs ->
    statusOf id (run reqs db) = Some "published" ->
    Exists (fun d => statusOf id d = Some "pending") (trace reqs db).
Proof.
  induction reqs as [|req rest IH]; intros db id Hdb Hreqs Hend.
  - done.
  - apply Forall_cons in Hreqs as [Hreq Hrest]. cbn [run fold_left] in Hend.
    cbn [trace].
    destruct (decide (statusOf id (step req db) = Some "published")) as [Hp|Hp].
    + apply Exists_cons_hd.
      destruct (step_published req db id Hreq Hp); done.
    + apply Exists_cons_tl. by apply IH.
Qed.

(** A request that carries no status leaves the status of a post it
    keeps, or moves it along one edge of the lifecycle. *)
Lemma step_status req (db : gmap string Post) id p p' :
  carriesStatus (snd req) = false ->
  db !! id = Some p ->
  step req db !! id = Some p' ->
  status p' = status p \/
  (status p = "draft" /\ status p' = "pending") \/
  (status p = "pending" /\ status p' = "published") \/
  (status p = "pending" /\ status p' = "rejected").
Proof.
  intros Hreq Hp Hp'.
  destruct (step_lookup req db id)
    as [E | [E | [(q & q' & Hq & E & Hc) | (q' & Hn & _)]]];
    [left; congruence | congruence | | congruence].
  assert (q = p) as -> by congruence. assert (q' = p') as -> by congruence.
  destruct req as [now op]. cbn [snd] in *.
  destruct op; cbn [docChange carriesStatus] in *; try done.
  - left. apply Hc.
  - destruct Hc as [Hc _]. destruct (b_status body); [discriminate Hreq|].
    left. exact Hc.
  - left. apply Hc.
  - right. left. split; apply Hc.
  - right. right. left. split; apply Hc.
  - right. right. right. split; apply Hc.
Qed.

(** C4, as amended.  A request that carries no status field leaves the
    status of a post or moves it along one edge of the state machine
    (draft to pending, pending to published, pending to rejected); and
    through any sequence of requests none of which is a create or an
    update carrying [status: 'published'], a post that is a draft at the
    start and published at the end was pending in between. *)
Theorem status_follows_lifecycle :
  (forall (req : Z * ApiOp) (db : gmap string Post) (id : string)
          (p p' : Post),
     carriesStatus (snd req) = false ->
     db !! id = Some p ->
     step req db !! id = Some p' ->
     status p' = status p \/
     (status p = "draft" /\ status p' = "pending") \/
     (status p = "pending" /\ status p' = "published") \/
     (status p = "pending" /\ status p' = "rejected")) /\
  (forall (reqs : list (Z * ApiOp)) (db : gmap string Post) (id : string),
     statusOf id db = Some "draft" ->
     Forall (fun req => publishesDirectly (snd req) = false) reqs ->
     statusOf id (run reqs db) = Some "published" ->
     Exists (fun d => statusOf id d = Some "pending") (trace reqs db)).
Proof.
  split.
  - apply step_status.
  - intros reqs db id Hd. apply no_direct_publish_from. by rewrite Hd.
Qed.

(** C5, as amended.  A request other than an update whose body has an
    [author] key leaves the author of every post it keeps as it was. *)
Theorem author_preserved (req : Z * ApiOp) (db : gmap string Post)
    (id : string) (p p' : Post) :
  rewritesAuthor (snd req) = false ->
  db !! id = Some p ->
  step req db !! id = Some p' ->
  author p' = author p.
Proof.
  intros Hreq Hp Hp'.
  destruct (step_lookup req db id)
    as [E | [E | [(q & q' & Hq & E & Hc) | (q' & Hn & _)]]];
    [congruence | congruence | | congruence].
  assert (q = p) as -> by congruence. assert (q' = p') as -> by congruence.
  destruct req as [now op]. cbn [snd] in *.
  destruct op; cbn [docChange rewritesAuthor] in *; try done;
    try (destruct Hc as (_ & _ & Hc); exact Hc);
    try (destruct Hc as (_ & Hc); exact Hc).
  destruct Hc as (_ & Hc). destruct (b_author body); [discriminate Hreq|].
  exact Hc.
Qed.

(** ** A draft published, and an author replaced, by one update *)

Lemma updateRoute_by_author now user id body (p : Post)
    (db : gmap string Post) :
  db !! id = Some p ->
  author p = user_id user ->
  updateValid body = true ->
  validatePaths (bodyPaths body) (applyBody body p) = true ->
  b_slug body = None ->
  step (now, Update (Authenticated user) id body) db !! id =
  Some (set_updatedAt now (applyBody body p)).
Proof.
  intros Hp Ha Hv Hs Hslug. unfold step. cbn [fst snd handle].
  unfold updateRoute, authenticate. rewrite Hv. cbn [negb]. rewrite Hp.
  cbv zeta. apply String.eqb_eq in Ha. rewrite Ha. cbn [negb andb].
  unfold findByIdAndUpdate. rewrite Hp, Hs, Hslug. cbn [negb isNull andb snd].
  apply lookup_insert_eq.
Qed.

(** A post created with [status: 'published'] is stored published, and
    the hook marks it published and approved on the spot. *)
Example createRoute_published :
  let stored := snd (createRoute 9 (Authenticated ann) post2 createBody db1)
                  !! post2 in
  status <$> stored = Some "published" /\
  isPublished <$> stored = Some true /\
  isApproved <$> stored = Some true /\
  approvedBy <$> stored = Some None.
Proof. vm_compute. repeat split. Qed.

(** C4 as first stated fails: the author's update with
    [status: 'published'] takes a draft to published in one step; the
    post is pending in no collection of the run. *)
Lemma direct_publish_counterexample :
  let reqs := [(9%Z, Update (Authenticated ann) post1 publishBody)] in
  statusOf post1 db1 = Some "draft" /\
  statusOf post1 (run reqs db1) = Some "published" /\
  Forall (fun d => statusOf post1 d <> Some "pending") (trace reqs db1).
Proof.
  intros reqs.
  assert (H0 : db1 !! post1 = Some draft1) by apply lookup_singleton_eq.
  assert (H1 : step (9%Z, Update (Authenticated ann) post1 publishBody) db1
               !! post1 = Some (set_updatedAt 9 (applyBody publishBody draft1))).
  { by apply updateRoute_by_author. }
  assert (S0 : statusOf post1 db1 = Some "draft").
  { unfold statusOf. by rewrite H0. }
  assert (S1 : statusOf post1 (run reqs db1) = Some "published").
  { unfold statusOf, reqs, run. cbn [fold_left]. by rewrite H1. }
  split; [exact S0|]. split; [exact S1|].
  repeat constructor.
  - rewrite S0. discriminate.
  - change (step (9%Z, Update (Authenticated ann) post1 publishBody) db1)
      with (run reqs db1). rewrite S1. discriminate.
Qed.

(** C5 as first stated fails: the author's update with an
    [author] key hands the post to another user. *)
Lemma author_rewritten_counterexample :
  db1 !! post1 = Some draft1 /\
  author draft1 = annId /\
  author <$> step (9%Z, Update (Authenticated ann) post1 authorBody) db1 !! post1
    = Some bobId.
Proof.
  assert (H0 : db1 !! post1 = Some draft1) by apply lookup_singleton_eq.
  split; [exact H0|]. split; [reflexivity|].
  rewrite (updateRoute_by_author 9 ann post1 authorBody draft1 db1);
    done.
Qed.

Lemma status_follows_lifecycle_witness :
  let reqs :=
    [(2%Z, Submit (Authenticated ann) post1);
     (3%Z, Approve (Authenticated root) post1)] in
  Exists (fun d => statusOf post1 d = Some "pending") (trace reqs db1) /\
  (exists p',
     step (2%Z, Submit (Authenticated ann) post1) db1 !! post1 = Some p' /\
     status draft1 = "draft" /\ status p' = "pending").
Proof.
  intros reqs.
  destruct status_follows_lifecycle as [Hstep Hrun]. split.
  - apply (Hrun reqs db1 post1).
    + vm_compute. reflexivity.
    + repeat constructor.
    + vm_compute. reflexivity.
  - destruct (step (2%Z, Submit (Authenticated ann) post1) db1 !! post1)
      as [p'|] eqn:E.
    + exists p'. split; [reflexivity|].
      destruct (Hstep (2%Z, Submit (Authenticated ann) post1) db1 post1
                  draft1 p' eq_refl (lookup_singleton_eq _ _) E)
        as [H | [H | [[H _] | [H _]]]]; [| exact H | discriminate H..].
      vm_compute in E. injection E as <-. discriminate H.
    + vm_compute in E. discriminate E.
Defined.

Lemma author_preserved_witness :
  exists p',
    step (2%Z, Submit (Authenticated ann) post1) db1 !! post1 = Some p' /\
    author p' = annId.
Proof.
  destruct (step (2%Z, Submit (Authenticated ann) post1) db1 !! post1)
    as [p'|] eqn:E.
  - exists p'. split; [reflexivity|].
    apply (author_preserved (2%Z, Submit (Authenticated ann) post1) db1 post1
             draft1 p'); [reflexivity | apply lookup_singleton_eq | exact E].
  - vm_compute in E. discriminate E.
Defined.

(* --------------------------------------------------------------------- *)
(** ** Pagination *)
(* --------------------------------------------------------------------- *)

(** [ceilDiv] is the ceiling of the quotient: the least number of pages
    of [limit] items that hold [total] items. *)
Lemma ceilDiv_ceiling (total limit : Z) :
  (0 <= total)%Z -> (1 <= limit)%Z ->
  (total <= ceilDiv total limit * limit < total + limit)%Z.
Proof.
  intros Ht Hl. unfold ceilDiv.
  pose proof (Z.div_mod total limit ltac:(lia)) as Hdm.
  pose proof (Z.mod_pos_bound total limit ltac:(lia)) as Hm.
  destruct (Z.eqb_spec (total mod limit) 0) as [E|E]; nia.
Qed.

Lemma listRoute_paginate textSearch page limit query docs :
  exists matching, listRoute textSearch page limit query docs =
                   paginate page limit matching.
Proof. eexists. reflexivity. Qed.

Lemma myPostsRoute_paginate user page limit statusParam docs :
  exists matching, myPostsRoute user page limit statusParam docs =
                   paginate page limit matching.
Proof. eexists. reflexivity. Qed.

Lemma pendingRoute_paginate page limit docs :
  exists matching, pendingRoute page limit docs = paginate page limit matching.
Proof. eexists. reflexivity. Qed.



(* --------------------------------------------------------------------- *)
(** ** Tokens *)
(* --------------------------------------------------------------------- *)

(** C7.  A token issued for a user verifies, any time before it expires,
    to claims with that user's id, username, email and role; a token
    whose signature is not the keyed hash of its header and claims under
    the secret, and a token whose expiry has passed, make [verifyToken]
    throw. *)
Theorem verifyToken_generateToken
    (hmac : string -> string -> Claims -> string)
    (JWT_SECRET : string) (JWT_EXPIRES_IN : Z) :
  (forall (user : User) (now later : Z),
     (later < now + JWT_EXPIRES_IN)%Z ->
     exists token decoded,
       generateToken hmac JWT_SECRET JWT_EXPIRES_IN now (Some user) =
         Return token /\
       verifyToken hmac JWT_SECRET later token = Return decoded /\
       c_id decoded = Some (user_id user) /\
       c_username decoded = Some (username user) /\
       c_email decoded = Some (email user) /\
       c_role decoded = role user) /\
  (forall alg claims signature now,
     signature <> hmac JWT_SECRET alg claims ->
     verifyToken hmac JWT_SECRET now (Signed alg claims signature) =
       Throw "Invalid or expired token") /\
  (forall alg claims signature exp now,
     c_exp claims = Some exp -> (exp <= now)%Z ->
     verifyToken hmac JWT_SECRET now (Signed alg claims signature) =
       Throw "Invalid or expired token").
Proof.
  repeat split.
  - intros user now later Hlater. unfold generateToken, jwt_sign.
    eexists _, _. split; [reflexivity|].
    unfold verifyToken, jwt_verify.
    cbn [includes existsb String.eqb Ascii.eqb Bool.eqb orb negb].
    rewrite String.eqb_refl. cbn [negb c_exp].
    destruct (Z.leb_spec (now + JWT_EXPIRES_IN) later) as [H|_]; [lia|].
    repeat split.
  - intros alg claims signature now Hsig. unfold verifyToken, jwt_verify.
    destruct (negb (includes ["HS256"; "HS384"; "HS512"] alg)); [reflexivity|].
    apply String.eqb_neq in Hsig. by rewrite Hsig.
  - intros alg claims signature exp now Hexp Hnow.
    unfold verifyToken, jwt_verify.
    destruct (negb (includes ["HS256"; "HS384"; "HS512"] alg)); [reflexivity|].
    destruct (negb (String.eqb signature (hmac JWT_SECRET alg claims)));
      [reflexivity|].
    rewrite Hexp. apply Z.leb_le in Hnow. by rewrite Hnow.
Qed.

Lemma verifyToken_generateToken_witness :
  let hmac := fun (secret alg : string) (c : Claims) =>
                String.append secret (String.append alg (default "" (c_id c))) in
  let secret := "your-secret-key" in
  (exists token decoded,
     generateToken hmac secret 604800 100 (Some ann) = Return token /\
     verifyToken hmac secret 200 token = Return decoded /\
     c_id decoded = Some annId /\ c_role decoded = Some "user") /\
  verifyToken hmac secret 200
    (Signed "HS256" (mkClaims (Some annId) None None (Some "admin") 100
                       (Some 604900%Z) None None) "forged") =
    Throw "Invalid or expired token".
Proof.
  intros hmac secret.
  destruct (verifyToken_generateToken hmac secret 604800) as (H1 & H2 & _).
  split.
  - destruct (H1 ann 100%Z 200%Z ltac:(lia))
      as (token & decoded & E1 & E2 & H3 & _ & _ & H4).
    exists token, decoded. auto.
  - apply H2. vm_compute. discriminate.
Defined.

(* ===================================================================== *)
(** * Further results *)
(* ===================================================================== *)

(* --------------------------------------------------------------------- *)
(** ** Guards of the post endpoints *)
(* --------------------------------------------------------------------- *)

(** A handler either answers with an error status and the collection it
    was given, or answers below 400. *)
Lemma handle_outcome now op (db : gmap string Post) :
  (exists c m, handle now op db = (failure c m, db) /\ (400 <= c)%nat) \/
  (statusCode (fst (handle now op db)) < 400)%nat.
Proof.
  assert (F : forall c m, (400 <= c)%nat ->
            (exists c' m', (failure c m, db) = (failure c' m', db) /\
                           (400 <= c')%nat) \/
            (statusCode (fst (failure c m, db)) < 400)%nat).
  { intros c m Hc. left. by exists c, m. }
  destruct op as [id|auth newId body|auth id body|auth id|auth id|auth id
                 |auth id|auth id reason]; cbn [handle].
  - unfold getRoute. destruct (db !! id) as [p|]; [|apply F; lia].
    destruct (String.eqb (status p) "published");
      [|right; cbn [fst statusCode success]; lia].
    destruct (incrementViewCount_spec now id p db) as (p' & E & _).
    unfold orError. rewrite E. right. cbn [fst statusCode success]. lia.
  - unfold createRoute, authenticate, respond.
    destruct auth as [| |user]; [apply F; lia..|].
    destruct (negb (createValid body)); [apply F; lia|].
    destruct (findBySlug (default "" (b_slug body)) db); [apply F; lia|].
    destruct (saveNew_result now newId (newPost now user body) db)
      as [(m & E) | (p' & Hn & E & H1)]; unfold orError; rewrite E;
      [apply F; lia|].
    right. cbn [fst statusCode success]. lia.
  - unfold updateRoute, authenticate, respond.
    destruct auth as [| |user]; [apply F; lia..|].
    destruct (negb (updateValid body)); [apply F; lia|].
    destruct (db !! id) as [p|] eqn:Hp; [|apply F; lia]. cbv zeta.
    destruct (negb (String.eqb (author p) (user_id user)) && negb (isAdmin user));
      [apply F; lia|].
    destruct (findByIdAndUpdate_result now id body p db Hp)
      as [(m & E) | (p' & E & H1 & H2)]; rewrite E; [apply F; lia|].
    right. cbn [fst statusCode success]. lia.
  - unfold deleteRoute, authenticate, respond.
    destruct auth as [| |user]; [apply F; lia..|].
    destruct (db !! id) as [p|] eqn:Hp; [|apply F; lia]. cbv zeta.
    destruct (negb (String.eqb (author p) (user_id user)) && negb (isAdmin user));
      [apply F; lia|].
    right. cbn [fst statusCode success]. lia.
  - unfold likeRoute, authenticate, respond.
    destruct auth as [| |user]; [apply F; lia..|].
    destruct (db !! id) as [p|] eqn:Hp; [|apply F; lia].
    destruct (incrementLikeCount_spec now id p db) as (p' & E & _).
    unfold orError. rewrite E. right. cbn [fst statusCode success]. lia.
  - route. destruct auth as [| |user]; [apply F; lia..|].
    destruct (db !! id) as [p|] eqn:Hp; [|apply F; lia].
    destruct (negb (String.eqb (author p) (user_id user))); [apply F; lia|].
    destruct (negb (String.eqb (status p) "draft")); [apply F; lia|].
    destruct (submitForApproval_spec now id p db) as (p' & E & _).
    rewrite E. right. cbn [fst statusCode success]. lia.
  - route. destruct auth as [| |user]; [apply F; lia..|].
    destruct (negb (hasRole (Some user) (RoleArray ["admin"]))); [apply F; lia|].
    destruct (db !! id) as [p|] eqn:Hp; [|apply F; lia].
    destruct (negb (String.eqb (status p) "pending")); [apply F; lia|].
    destruct (approve_spec now id (user_id user) p db) as (p' & E & _).
    rewrite E. right. cbn [fst statusCode success]. lia.
  - route. destruct auth as [| |user]; [apply F; lia..|].
    destruct (negb (hasRole (Some user) (RoleArray ["admin"]))); [apply F; lia|].
    destruct (negb (reasonValid reason)); [apply F; lia|].
    destruct (db !! id) as [p|] eqn:Hp; [|apply F; lia].
    destruct (negb (String.eqb (status p) "pending")); [apply F; lia|].
    destruct (reject_result now id (user_id user)
                (Js.trim (default "" reason)) p db)
      as [E | (p' & E & _)]; rewrite E; [apply F; lia|].
    right. cbn [fst statusCode success]. lia.
Qed.

(** X1.  A request answered with an error status (400 or above) has
    written nothing: the collection of posts is the one it found. *)
Theorem error_writes_nothing (now : Z) (op : ApiOp) (db : gmap string Post) :
  (400 <= statusCode (fst (handle now op db)))%nat ->
  snd (handle now op db) = db.
Proof.
  intros H. destruct (handle_outcome now op db) as [(c & m & E & _) | Hlt].
  - by rewrite E.
  - lia.
Qed.

Lemma error_writes_nothing_witness :
  snd (handle 9 (Approve (Authenticated root) post1) db1) = db1.
Proof.
  apply error_writes_nothing. vm_compute. lia.
Defined.

(* --------------------------------------------------------------------- *)
(** ** The pre-save hook and the fields it leaves alone *)
(* --------------------------------------------------------------------- *)

Lemma hookExcerpt_rest p :
  let q := hookExcerpt p in
  title q = title p /\
  content q = content p /\
  category q = category p /\
  slug q = slug p /\
  featuredImage q = featuredImage p /\
  tags q = tags p /\
  viewCount q = viewCount p /\
  likeCount q = likeCount p /\
  commentCount q = commentCount p /\
  seo q = seo p /\
  createdAt q = createdAt p.
Proof. unfold hookExcerpt. destruct (_ && _); cbn; repeat split. Qed.

Lemma hookPublished_rest now p :
  let q := hookPublished now p in
  title q = title p /\
  content q = content p /\
  category q = category p /\
  slug q = slug p /\
  featuredImage q = featuredImage p /\
  tags q = tags p /\
  viewCount q = viewCount p /\
  likeCount q = likeCount p /\
  commentCount q = commentCount p /\
  seo q = seo p /\
  createdAt q = createdAt p.
Proof. unfold hookPublished. destruct (_ && _); cbn; repeat split. Qed.

Lemma hookPending_rest now p :
  let q := hookPending now p in
  title q = title p /\
  content q = content p /\
  category q = category p /\
  slug q = slug p /\
  featuredImage q = featuredImage p /\
  tags q = tags p /\
  viewCount q = viewCount p /\
  likeCount q = likeCount p /\
  commentCount q = commentCount p /\
  seo q = seo p /\
  createdAt q = createdAt p.
Proof. unfold hookPending. destruct (_ && _); cbn; repeat split. Qed.

Lemma hookApproved_rest p :
  let q := hookApproved p in
  title q = title p /\
  content q = content p /\
  category q = category p /\
  slug q = slug p /\
  featuredImage q = featuredImage p /\
  tags q = tags p /\
  viewCount q = viewCount p /\
  likeCount q = likeCount p /\
  commentCount q = commentCount p /\
  seo q = seo p /\
  createdAt q = createdAt p.
Proof. unfold hookApproved. destruct (_ && _); cbn; repeat split. Qed.

(** The hook touches none of the content fields and counters. *)
Lemma preSave_rest now p :
  let q := preSave now p in
  title q = title p /\
  content q = content p /\
  category q = category p /\
  slug q = slug p /\
  featuredImage q = featuredImage p /\
  tags q = tags p /\
  viewCount q = viewCount p /\
  likeCount q = likeCount p /\
  commentCount q = commentCount p /\
  seo q = seo p /\
  createdAt q = createdAt p.
Proof.
  cbv zeta. unfold preSave.
  pose proof (hookExcerpt_rest p) as H1.
  pose proof (hookPublished_rest now (hookExcerpt p)) as H2.
  pose proof (hookPending_rest now (hookPublished now (hookExcerpt p))) as H3.
  pose proof
    (hookApproved_rest (hookPending now (hookPublished now (hookExcerpt p))))
    as H4.
  cbv zeta in H1, H2, H3, H4.
  set (p1 := hookExcerpt p) in *. set (p2 := hookPublished now p1) in *.
  set (p3 := hookPending now p2) in *. set (p4 := hookApproved p3) in *.
  clearbody p1 p2 p3 p4.
  repeat match goal with H : _ /\ _ |- _ => destruct H end.
  repeat match goal with H : _ = _ |- _ => rewrite H end.
  repeat split.
Qed.


(** Bring in both halves of what the hook does to [p], the hooked
    document abstracted to a variable. *)
Ltac preSave_all now p :=
  let H := fresh "H" in
  let H' := fresh "H" in
  let q := fresh "saved" in
  pose proof (preSave_frame now p) as H; cbv zeta in H;
  pose proof (preSave_rest now p) as H'; cbv zeta in H';
  revert H H'; generalize (preSave now p); intros q H H';
  fields_in H; fields_in H';
  repeat match type of H with _ /\ _ => destruct H as [? H] end;
  repeat match type of H' with _ /\ _ => destruct H' as [? H'] end.

(* --------------------------------------------------------------------- *)
(** ** Who may do what *)
(* --------------------------------------------------------------------- *)

Lemma hasRole_admin_iff (u : User) :
  hasRole (Some u) (RoleArray ["admin"]) = true <-> role u = Some "admin".
Proof.
  unfold hasRole. destruct (role u) as [r|]; [|done].
  destruct (String.eqb_spec r "") as [->|Hne].
  - done.
  - cbn [Js.truthy negb]. apply String.eqb_neq in Hne. rewrite Hne.
    cbn [negb rolesOf includes existsb]. rewrite orb_false_r.
    rewrite String.eqb_eq. split; congruence.
Qed.

Lemma hasRole_not_admin (u : User) :
  role u <> Some "admin" -> hasRole (Some u) (RoleArray ["admin"]) = false.
Proof.
  intros H. destruct (hasRole (Some u) (RoleArray ["admin"])) eqn:E; [|done].
  apply hasRole_admin_iff in E. done.
Qed.

Lemma isAdmin_false (u : User) : role u <> Some "admin" -> isAdmin u = false.
Proof.
  unfold isAdmin. destruct (role u) as [r|]; [|done].
  intros H. apply String.eqb_neq. congruence.
Qed.

(** X2.  Every endpoint behind [authenticate] answers a request with no
    token, or with a token that resolves to no active user, with 401 and
    writes nothing, whatever the rest of the request. *)
Theorem unauthenticated_rejected (now : Z) (op : ApiOp) (auth : Auth)
    (db : gmap string Post) :
  authOf op = Some auth ->
  auth = NoToken \/ auth = InvalidToken ->
  statusCode (fst (handle now op db)) = 401%nat /\
  snd (handle now op db) = db.
Proof.
  intros Hop Hauth.
  destruct op; cbn [authOf] in Hop; try discriminate Hop;
    injection Hop as ->; cbn [handle];
    unfold createRoute, updateRoute, deleteRoute, likeRoute; route;
    destruct Hauth as [-> | ->]; split; reflexivity.
Qed.

Lemma unauthenticated_rejected_witness :
  statusCode (fst (handle 9 (Delete NoToken post1) db1)) = 401%nat /\
  snd (handle 9 (Delete NoToken post1) db1) = db1.
Proof.
  apply (unauthenticated_rejected 9 (Delete NoToken post1) NoToken db1);
    [reflexivity | left; reflexivity].
Defined.

(** X3.  Approve and reject are for admins only: from an authenticated
    user whose role is not 'admin' both are answered 403 and write
    nothing, whatever the post's state and whatever the reason given. *)
Theorem moderation_requires_admin (now : Z) (user : User) (id : string)
    (reason : option string) (db : gmap string Post) :
  role user <> Some "admin" ->
  approveRoute now (Authenticated user) id db =
    (failure 403 "Access denied. Insufficient permissions.", db) /\
  rejectRoute now (Authenticated user) id reason db =
    (failure 403 "Access denied. Insufficient permissions.", db).
Proof.
  intros H. route. rewrite (hasRole_not_admin _ H). split; reflexivity.
Qed.

Lemma moderation_requires_admin_witness :
  approveRoute 9 (Authenticated ann) post1 dbPending =
    (failure 403 "Access denied. Insufficient permissions.", dbPending) /\
  rejectRoute 9 (Authenticated ann) post1 (Some "Needs more detail on X")
    dbPending =
    (failure 403 "Access denied. Insufficient permissions.", dbPending).
Proof.
  apply (moderation_requires_admin 9 ann post1 _ dbPending). discriminate.
Defined.

(** X4.  A user who is neither the author of a post nor an admin cannot
    delete or update it: delete is answered 403, update is answered 403
    when its body passes validation and 400 when it does not, and in
    every case the collection is left as it was. *)
Theorem foreign_post_protected (now : Z) (user : User) (id : string)
    (body : PostBody) (p : Post) (db : gmap string Post) :
  db !! id = Some p ->
  author p <> user_id user ->
  role user <> Some "admin" ->
  deleteRoute (Authenticated user) id db =
    (failure 403 "Access denied. You can only delete your own posts.", db) /\
  updateRoute now (Authenticated user) id body db =
    (failure (if updateValid body then 403 else 400)
       (if updateValid body
        then "Access denied. You can only update your own posts."
        else "Validation failed"), db).
Proof.
  intros Hp Ha Hr. apply String.eqb_neq in Ha.
  unfold deleteRoute, updateRoute, authenticate. rewrite Hp. cbv zeta.
  rewrite Ha, (isAdmin_false _ Hr). cbn [negb andb]. split; [reflexivity|].
  destruct (updateValid body); reflexivity.
Qed.

(** X5.  Submit acts on drafts only and approve and reject on pending
    posts only, whoever asks: on a post that is published, rejected or
    archived each of the three is answered with an error and the
    collection is left as it was. *)
Theorem lifecycle_terminal (now : Z) (op : ApiOp) (id : string) (p : Post)
    (db : gmap string Post) :
  lifecycleTarget op = Some id ->
  db !! id = Some p ->
  status p <> "draft" ->
  status p <> "pending" ->
  (400 <= statusCode (fst (handle now op db)))%nat /\
  snd (handle now op db) = db.
Proof.
  intros Hop Hp Hd Hpe.
  apply String.eqb_neq in Hd. apply String.eqb_neq in Hpe.
  destruct op; cbn [lifecycleTarget] in Hop; try discriminate Hop;
    injection Hop as ->; cbn [handle]; route;
    destruct auth as [| |user]; try (split; [cbn; lia | reflexivity]).
  - rewrite Hp.
    destruct (negb (String.eqb (author p) (user_id user)));
      [split; [cbn; lia | reflexivity]|].
    rewrite Hd. split; [cbn; lia | reflexivity].
  - destruct (negb (hasRole (Some user) (RoleArray ["admin"])));
      [split; [cbn; lia | reflexivity]|].
    rewrite Hp, Hpe. split; [cbn; lia | reflexivity].
  - destruct (negb (hasRole (Some user) (RoleArray ["admin"])));
      [split; [cbn; lia | reflexivity]|].
    destruct (negb (reasonValid reason)); [split; [cbn; lia | reflexivity]|].
    rewrite Hp, Hpe. split; [cbn; lia | reflexivity].
Qed.

Lemma foreign_post_protected_witness :
  deleteRoute (Authenticated bob) post1 db1 =
    (failure 403 "Access denied. You can only delete your own posts.", db1) /\
  updateRoute 9 (Authenticated bob) post1 publishBody db1 =
    (failure 403 "Access denied. You can only update your own posts.", db1).
Proof.
  apply (foreign_post_protected 9 bob post1 publishBody draft1 db1);
    [apply lookup_singleton_eq | vm_compute; discriminate | discriminate].
Defined.

Lemma lifecycle_terminal_witness :
  (400 <= statusCode (fst (handle 9 (Approve (Authenticated root) post1)
                             dbRejected)))%nat /\
  snd (handle 9 (Approve (Authenticated root) post1) dbRejected) = dbRejected.
Proof.
  apply (lifecycle_terminal 9 (Approve (Authenticated root) post1) post1
           rejected1 dbRejected);
    [reflexivity | apply lookup_singleton_eq | vm_compute; discriminate
    | vm_compute; discriminate].
Defined.

(* --------------------------------------------------------------------- *)
(** ** Create, delete, read, like *)
(* --------------------------------------------------------------------- *)

(** X6.  A create request answered 201 has stored one new document under
    a fresh id and touched no other: its author is the requester (an
    [author] key of the body is not read), its status is the body's or
    'draft', and it starts with no approver, no rejection reason and
    zeroed counters. *)
Theorem create_stores_requester (now : Z) (user : User) (newId : string)
    (body : PostBody) (db db' : gmap string Post) (r : Response) :
  createRoute now (Authenticated user) newId body db = (r, db') ->
  statusCode r = 201%nat ->
  db !! newId = None /\
  exists p,
    db' = <[newId := p]> db /\
    data r = Some p /\
    author p = user_id user /\
    status p = default "draft" (b_status body) /\
    approvedBy p = None /\
    rejectionReason p = None /\
    viewCount p = 0%Z /\ likeCount p = 0%Z /\ commentCount p = 0%Z.
Proof.
  unfold createRoute, authenticate. intros E Hc.
  destruct (negb (createValid body)).
  { injection E as <- <-. discriminate Hc. }
  destruct (findBySlug (default "" (b_slug body)) db).
  { injection E as <- <-. discriminate Hc. }
  unfold orError, saveNew in E.
  destruct (negb (validatePaths allPaths (newPost now user body))).
  { injection E as <- <-. discriminate Hc. }
  destruct (db !! newId) eqn:Hn.
  { injection E as <- <-. discriminate Hc. }
  injection E as <- <-. split; [reflexivity|].
  eexists. split; [reflexivity|]. split; [reflexivity|].
  preSave_all now (newPost now user body).
  repeat apply conj; hyp.
Qed.

Lemma create_stores_requester_witness :
  exists p,
    snd (createRoute 9 (Authenticated ann) post2 createBody db1) =
      <[post2 := p]> db1 /\
    author p = annId.
Proof.
  destruct (create_stores_requester 9 ann post2 createBody db1
              (snd (createRoute 9 (Authenticated ann) post2 createBody db1))
              (fst (createRoute 9 (Authenticated ann) post2 createBody db1)))
    as (_ & p & Hdb & _ & Ha & _).
  - symmetry. apply surjective_pairing.
  - vm_compute. reflexivity.
  - exists p. split; [exact Hdb | exact Ha].
Defined.

(** X7.  A delete request from the author of the post, or from an admin,
    is answered 200 and removes that post and no other. *)
Theorem delete_removes_only_target (user : User) (id : string) (p : Post)
    (db : gmap string Post) :
  db !! id = Some p ->
  author p = user_id user \/ role user = Some "admin" ->
  statusCode (fst (deleteRoute (Authenticated user) id db)) = 200%nat /\
  snd (deleteRoute (Authenticated user) id db) !! id = None /\
  forall j, j <> id ->
    snd (deleteRoute (Authenticated user) id db) !! j = db !! j.
Proof.
  intros Hp Hwho.
  assert (E : deleteRoute (Authenticated user) id db =
              (success 200 "Post deleted successfully" None, delete id db)).
  { unfold deleteRoute, authenticate. rewrite Hp. cbv zeta.
    destruct Hwho as [Ha | Hr].
    - apply String.eqb_eq in Ha. by rewrite Ha.
    - unfold isAdmin. rewrite Hr. cbn [String.eqb Ascii.eqb Bool.eqb negb].
      by rewrite andb_false_r. }
  rewrite E. cbn [fst snd]. split; [reflexivity|]. split.
  - apply lookup_delete_eq.
  - intros j Hj. by apply lookup_delete_ne.
Qed.

Lemma delete_removes_only_target_witness :
  snd (deleteRoute (Authenticated root) post1 db1) !! post1 = None.
Proof.
  apply (delete_removes_only_target root post1 draft1 db1);
    [apply lookup_singleton_eq | right; reflexivity].
Defined.







(* --------------------------------------------------------------------- *)
(** ** Slugs stay unique *)
(* --------------------------------------------------------------------- *)

Lemma slugChar_not_whitespace c : slugChar c = true -> Js.whitespace c = false.
Proof.
  destruct c as [[] [] [] [] [] [] [] []]; vm_compute; intros H;
    first [reflexivity | discriminate H].
Qed.

Lemma slugChar_lowerChar c : slugChar c = true -> lowerChar c = c.
Proof.
  destruct c as [[] [] [] [] [] [] [] []]; vm_compute; intros H;
    first [reflexivity | discriminate H].
Qed.

Lemma toLowerCase_slug s : allChars slugChar s = true -> toLowerCase s = s.
Proof.
  induction s as [|c rest IH]; simpl; [done|].
  intros H. apply andb_true_iff in H as [Hc Hr].
  by rewrite (slugChar_lowerChar c Hc), IH.
Qed.

Lemma trimStart_slug s : allChars slugChar s = true -> Js.trimStart s = s.
Proof.
  destruct s as [|c rest]; simpl; [done|].
  intros H. apply andb_true_iff in H as [Hc _].
  by rewrite (slugChar_not_whitespace c Hc).
Qed.

Lemma trimEnd_slug s : allChars slugChar s = true -> Js.trimEnd s = s.
Proof.
  induction s as [|c rest IH]; simpl; [done|].
  intros H. apply andb_true_iff in H as [Hc Hr]. rewrite (IH Hr).
  destruct rest; [|done]. by rewrite (slugChar_not_whitespace c Hc).
Qed.

(** A slug that passes the route's pattern is stored as it is: the
    schema's [lowercase] and [trim] setters do not alter it. *)
Lemma stored_slug s :
  slugPattern s = true -> Js.trim (toLowerCase s) = s.
Proof.
  unfold slugPattern. intros H. apply andb_true_iff in H as [_ H].
  rewrite (toLowerCase_slug s H). unfold Js.trim.
  by rewrite (trimStart_slug s H), (trimEnd_slug s H).
Qed.

Lemma existsb_false_In {A} (f : A -> bool) (l : list A) x :
  existsb f l = false -> In x l -> f x = false.
Proof.
  intros H Hx. destruct (f x) eqn:E; [|done].
  assert (existsb f l = true) by (apply existsb_exists; eauto). congruence.
Qed.

Lemma findBySlug_false s (db : gmap string Post) j q :
  findBySlug s db = false -> db !! j = Some q -> slug q <> toLowerCase s.
Proof.
  unfold findBySlug. intros H Hq.
  apply (existsb_false_In _ _ (j, q)) in H.
  - cbn [snd] in H. by apply String.eqb_neq.
  - apply list_elem_of_In, elem_of_map_to_list. exact Hq.
Qed.

Lemma slugTaken_false id s (db : gmap string Post) j q :
  slugTaken id s db = false -> db !! j = Some q -> slug q = s -> j = id.
Proof.
  unfold slugTaken. intros H Hq Hs.
  apply (existsb_false_In _ _ (j, q)) in H.
  - cbn [fst snd] in H. apply String.eqb_eq in Hs. rewrite Hs, andb_true_r in H.
    apply negb_false_iff, String.eqb_eq in H. exact H.
  - apply list_elem_of_In, elem_of_map_to_list. exact Hq.
Qed.

Lemma slug_setOpt {A} (set : A -> Post -> Post) o p :
  (forall v q, slug (set v q) = slug q) ->
  slug (setOpt set o p) = slug p.
Proof. intros H. destruct o; simpl; auto. Qed.

Lemma applyBody_slug body p :
  slug (applyBody body p) =
  match b_slug body with
  | Some s => Js.trim (toLowerCase s)
  | None => slug p
  end.
Proof.
  unfold applyBody. cbv zeta.
  repeat (rewrite slug_setOpt by (intros; reflexivity)).
  destruct (b_slug body) as [s|]; cbn [setOpt fmap option_fmap option_map].
  - reflexivity.
  - repeat (rewrite slug_setOpt by (intros; reflexivity)). reflexivity.
Qed.

(** [save] either throws or writes a document with the slug it was
    given. *)
Lemma save_cases now id paths (q : Post) (db : gmap string Post) :
  save now id paths q db = Throw "ValidationError" \/
  exists p', save now id paths q db = Return (p', <[id := p']> db) /\
             slug p' = slug q.
Proof.
  unfold save. destruct (validatePaths paths q); [right|by left].
  eexists. split; [reflexivity|]. preSave_all now q. fields. hyp.
Qed.

Lemma same_slug_owner (db : gmap string Post) id p s :
  uniqueSlugs db -> db !! id = Some p -> s = slug p ->
  forall j q, db !! j = Some q -> slug q = s -> j = id.
Proof. intros Hu Hp -> j q Hq Hs. exact (Hu j id q p Hq Hp Hs). Qed.

(** What a handler does to the slugs of a collection that has no
    duplicate. *)
Lemma handle_slugs now op (db : gmap string Post) :
  uniqueSlugs db ->
  snd (handle now op db) = db \/
  (exists id p',
     snd (handle now op db) = <[id := p']> db /\
     forall j q, db !! j = Some q -> slug q = slug p' -> j = id) \/
  (exists id, snd (handle now op db) = delete id db).
Proof.
  intros Hu.
  assert (S : forall id p q (r : Exc (Post * gmap string Post)) k,
            db !! id = Some p ->
            r = Throw "ValidationError" \/
            (exists p', r = Return (p', <[id := p']> db) /\ slug p' = slug q) ->
            slug q = slug p ->
            snd (orError r k db) = db \/
            (exists id p',
               snd (orError r k db) = <[id := p']> db /\
               forall j q, db !! j = Some q -> slug q = slug p' -> j = id) \/
            (exists id, snd (orError r k db) = delete id db)).
  { intros id p q r k Hp [-> | (p' & -> & Hs)] Hq; [by left|].
    right; left. exists id, p'. split; [reflexivity|].
    apply (same_slug_owner db id p); [done..|congruence]. }
  destruct op as [id|auth newId body|auth id body|auth id|auth id|auth id
                 |auth id|auth id reason]; cbn [handle].
  - unfold getRoute. destruct (db !! id) as [p|] eqn:Hp; [|stay].
    destruct (String.eqb (status p) "published"); [|stay].
    eapply (S id p);
      [exact Hp | unfold incrementViewCount; apply save_cases | reflexivity].
  - unfold createRoute, authenticate, respond. destruct auth as [| |user]; [stay..|].
    destruct (createValid body) eqn:Hv; [|stay]. cbn [negb].
    destruct (findBySlug (default "" (b_slug body)) db) eqn:Hf; [stay|].
    unfold orError, saveNew.
    destruct (negb (validatePaths allPaths (newPost now user body))); [stay|].
    destruct (db !! newId) eqn:Hn; [stay|].
    right; left. eexists _, _. split; [reflexivity|].
    intros j q Hq Hs. exfalso.
    apply (findBySlug_false _ _ _ _ Hf Hq). rewrite Hs.
    preSave_all now (newPost now user body).
    match goal with H : slug saved = _ |- _ => rewrite H end.
    assert (Hp : slugPattern (default "" (b_slug body)) = true).
    { unfold createValid in Hv. repeat (apply andb_true_iff in Hv as [Hv ?]).
      assumption. }
    cbn [slug newPost]. rewrite (stored_slug _ Hp).
    unfold slugPattern in Hp. apply andb_true_iff in Hp as [_ Hp].
    symmetry. by apply toLowerCase_slug.
  - unfold updateRoute, authenticate, respond. destruct auth as [| |user]; [stay..|].
    destruct (negb (updateValid body)); [stay|].
    destruct (db !! id) as [p|] eqn:Hp; [|stay]. cbv zeta.
    destruct (negb (String.eqb (author p) (user_id user)) && negb (isAdmin user));
      [stay|].
    unfold findByIdAndUpdate. rewrite Hp.
    destruct (negb (validatePaths (bodyPaths body) (applyBody body p))); [stay|].
    destruct (b_slug body) as [s|] eqn:Hb; cbn [isNull negb andb].
    + destruct (slugTaken id (slug (applyBody body p)) db) eqn:Ht; [stay|].
      right; left. eexists _, _. split; [reflexivity|].
      intros j q Hq Hs. by apply (slugTaken_false _ _ _ _ _ Ht Hq).
    + right; left. eexists _, _. split; [reflexivity|].
      apply (same_slug_owner db id p _ Hu Hp).
      change (slug (set_updatedAt now (applyBody body p)))
        with (slug (applyBody body p)).
      by rewrite applyBody_slug, Hb.
  - unfold deleteRoute, authenticate, respond. destruct auth as [| |user]; [stay..|].
    destruct (db !! id) as [p|] eqn:Hp; [|stay]. cbv zeta.
    destruct (negb (String.eqb (author p) (user_id user)) && negb (isAdmin user));
      [stay|].
    right; right. by exists id.
  - unfold likeRoute, authenticate, respond. destruct auth as [| |user]; [stay..|].
    destruct (db !! id) as [p|] eqn:Hp; [|stay].
    eapply (S id p);
      [exact Hp | unfold incrementLikeCount; apply save_cases | reflexivity].
  - unfold submitRoute, authenticate, respond.
    destruct auth as [| |user]; [stay..|].
    destruct (db !! id) as [p|] eqn:Hp; [|stay].
    destruct (negb (String.eqb (author p) (user_id user))); [stay|].
    destruct (negb (String.eqb (status p) "draft")); [stay|].
    eapply (S id p);
      [exact Hp | unfold submitForApproval; apply save_cases | reflexivity].
  - unfold approveRoute, authenticate, authorize, respond.
    destruct auth as [| |user]; [stay..|].
    destruct (negb (hasRole (Some user) (RoleArray ["admin"]))); [stay|].
    destruct (db !! id) as [p|] eqn:Hp; [|stay].
    destruct (negb (String.eqb (status p) "pending")); [stay|].
    eapply (S id p);
      [exact Hp | unfold approve; apply save_cases | reflexivity].
  - unfold rejectRoute, authenticate, authorize, respond.
    destruct auth as [| |user]; [stay..|].
    destruct (negb (hasRole (Some user) (RoleArray ["admin"]))); [stay|].
    destruct (negb (reasonValid reason)); [stay|].
    destruct (db !! id) as [p|] eqn:Hp; [|stay].
    destruct (negb (String.eqb (status p) "pending")); [stay|].
    eapply (S id p);
      [exact Hp | unfold reject; apply save_cases | reflexivity].
Qed.

(** X10.  The post endpoints keep slugs unique: if no two posts share a
    slug before a request, none do after it, whatever the request.  A
    create is refused when the slug is taken, an update is refused by
    the unique index, and nothing else changes a slug. *)
Theorem step_keeps_slugs_unique (req : Z * ApiOp) (db : gmap string Post) :
  uniqueSlugs db -> uniqueSlugs (step req db).
Proof.
  intros Hu. unfold step.
  destruct (handle_slugs (fst req) (snd req) db Hu)
    as [E | [(id & p' & E & Hnew) | (id & E)]]; rewrite E.
  - exact Hu.
  - intros i j p q Hi Hj Hs.
    destruct (decide (id = i)) as [<-|Hni], (decide (id = j)) as [<-|Hnj].
    + reflexivity.
    + rewrite lookup_insert_eq in Hi. rewrite lookup_insert_ne in Hj by done.
      injection Hi as <-. symmetry. by apply (Hnew j q).
    + rewrite lookup_insert_ne in Hi by done. rewrite lookup_insert_eq in Hj.
      injection Hj as <-. by apply (Hnew i p).
    + rewrite lookup_insert_ne in Hi, Hj by done. by apply (Hu i j p q).
  - intros i j p q Hi Hj Hs.
    apply lookup_delete_Some in Hi as [_ Hi].
    apply lookup_delete_Some in Hj as [_ Hj]. by apply (Hu i j p q).
Qed.

Lemma uniqueSlugs_singleton id (p : Post) : uniqueSlugs {[ id := p ]}.
Proof.
  intros i j p1 p2 Hi Hj _.
  apply lookup_singleton_Some in Hi as [<- _].
  apply lookup_singleton_Some in Hj as [<- _]. reflexivity.
Qed.

Lemma step_keeps_slugs_unique_witness :
  uniqueSlugs (step (9%Z, Create (Authenticated ann) post2 createBody) db1).
Proof.
  apply step_keeps_slugs_unique. apply uniqueSlugs_singleton.
Defined.

(* --------------------------------------------------------------------- *)
(** ** The pre-save hook: what every saved document satisfies *)
(* --------------------------------------------------------------------- *)

Lemma hookExcerpt_id p :
  truthyOpt (excerpt p) = true \/ content p = "" -> hookExcerpt p = p.
Proof.
  unfold hookExcerpt. intros [H | H].
  - by rewrite H.
  - rewrite H. by rewrite andb_false_r.
Qed.

Lemma hookPublished_id now p :
  status p <> "published" \/ publishedAt p <> None -> hookPublished now p = p.
Proof.
  unfold hookPublished. intros [H | H].
  - apply String.eqb_neq in H. by rewrite H.
  - destruct (publishedAt p); [by rewrite andb_false_r | done].
Qed.

Lemma hookPending_id now p :
  status p <> "pending" \/ submittedForApproval p = true ->
  hookPending now p = p.
Proof.
  unfold hookPending. intros [H | H].
  - apply String.eqb_neq in H. by rewrite H.
  - rewrite H. by rewrite andb_false_r.
Qed.

Lemma hookApproved_id p :
  status p <> "published" \/ isApproved p = true -> hookApproved p = p.
Proof.
  unfold hookApproved. intros [H | H].
  - apply String.eqb_neq in H. by rewrite H.
  - rewrite H. by rewrite andb_false_r.
Qed.

Lemma append_not_empty s t : t <> "" -> String.append s t <> "".
Proof. intros Ht. destruct s; simpl; done. Qed.

Lemma hookExcerpt_excerpt p :
  truthyOpt (excerpt (hookExcerpt p)) = true \/ content p = "".
Proof.
  unfold hookExcerpt.
  destruct (truthyOpt (excerpt p)) eqn:E; cbn [negb andb]; [left; exact E|].
  destruct (String.eqb_spec (content p) "") as [Hc|Hc]; [by right|].
  left. cbn [Js.truthy].
  replace (negb (String.eqb (content p) "")) with true
    by (symmetry; apply negb_true_iff; by apply String.eqb_neq).
  cbn [excerpt set_excerpt truthyOpt]. apply truthy_Str.
  by apply append_not_empty.
Qed.

Lemma hookPublished_excerpt now p :
  excerpt (hookPublished now p) = excerpt p.
Proof. unfold hookPublished. by destruct (_ && _). Qed.

Lemma hookPending_excerpt now p : excerpt (hookPending now p) = excerpt p.
Proof. unfold hookPending. by destruct (_ && _). Qed.

Lemma hookApproved_excerpt p : excerpt (hookApproved p) = excerpt p.
Proof. unfold hookApproved. by destruct (_ && _). Qed.

Lemma preSave_excerpt now p :
  excerpt (preSave now p) = excerpt (hookExcerpt p).
Proof.
  unfold preSave.
  by rewrite hookApproved_excerpt, hookPending_excerpt, hookPublished_excerpt.
Qed.

Lemma substring_length n s : (String.length (substring 0 n s) <= n)%nat.
Proof.
  revert s. induction n as [|n IH]; intros [|c s]; simpl; try lia.
  specialize (IH s). lia.
Qed.

Lemma append_length s t :
  String.length (String.append s t) = (String.length s + String.length t)%nat.
Proof. induction s as [|c s IH]; simpl; [done | by rewrite IH]. Qed.

(** X11.  Whatever document it is given, the save hook hands back one in
    which: a published post is approved and has a publication date; a
    pending post is marked submitted; a post with content has a
    non-empty excerpt; and an excerpt within the schema's 300 characters
    stays within them (one the hook derives has at most 153). *)
Theorem preSave_invariants (now : Z) (p : Post) :
  let q := preSave now p in
  (status q = "published" -> isApproved q = true /\ publishedAt q <> None) /\
  (status q = "pending" -> submittedForApproval q = true) /\
  (content q <> "" -> truthyOpt (excerpt q) = true) /\
  (validPath PExcerpt p = true -> validPath PExcerpt q = true).
Proof.
  cbv zeta.
  pose proof (preSave_frame now p) as F. cbv zeta in F.
  destruct F as (Hs & _ & Ha & _ & _ & _ & Hd & _ & Hf & _).
  pose proof (preSave_rest now p) as R. cbv zeta in R.
  destruct R as (_ & Hc & _).
  rewrite Hs, Ha, Hd, Hf, Hc, preSave_excerpt.
  repeat apply conj.
  - intros E. rewrite E. cbn [String.eqb Ascii.eqb Bool.eqb andb].
    split; [apply orb_true_r|]. by destruct (publishedAt p).
  - intros E. rewrite E. apply orb_true_r.
  - intros E. by destruct (hookExcerpt_excerpt p).
  - cbn [validPath]. rewrite preSave_excerpt. unfold hookExcerpt.
    destruct (negb (truthyOpt (excerpt p)) && Js.truthy (Js.Str (content p)));
      [|intros H; exact H].
    intros _.
    cbn [excerpt set_excerpt maxLengthOpt]. unfold maxLength.
    apply Nat.leb_le. rewrite append_length.
    pose proof (substring_length 150 (content p)). simpl String.length. lia.
Qed.

Lemma preSave_invariants_witness :
  isApproved (preSave 9 publishedByUpdate) = true /\
  publishedAt (preSave 9 publishedByUpdate) <> None.
Proof.
  destruct (preSave_invariants 9 publishedByUpdate) as [H _].
  apply H. reflexivity.
Defined.

(** X12.  Saving again changes nothing: the hook applied to a document
    it has already been applied to, at whatever later time, gives that
    document back; in particular dates it stamped are not stamped
    anew. *)
Theorem preSave_idempotent (now later : Z) (p : Post) :
  preSave later (preSave now p) = preSave now p.
Proof.
  pose proof (preSave_frame now p) as F. cbv zeta in F.
  destruct F as (Hs & _ & Ha & _ & _ & _ & Hd & _ & Hf & _).
  pose proof (preSave_rest now p) as R. cbv zeta in R.
  destruct R as (_ & Hc & _).
  pose proof (preSave_excerpt now p) as He.
  set (q := preSave now p) in *. unfold preSave at 1.
  rewrite (hookExcerpt_id q).
  2:{ rewrite He, Hc. apply hookExcerpt_excerpt. }
  rewrite (hookPublished_id later q).
  2:{ rewrite Hs, Hd. destruct (String.eqb_spec (status p) "published");
        [right|by left].
      cbn [andb]. by destruct (publishedAt p). }
  rewrite (hookPending_id later q).
  2:{ rewrite Hs, Hf. destruct (String.eqb_spec (status p) "pending");
        [right|by left].
      apply orb_true_r. }
  apply hookApproved_id.
  rewrite Hs, Ha. destruct (String.eqb_spec (status p) "published");
    [right|by left].
  apply orb_true_r.
Qed.

(* --------------------------------------------------------------------- *)
(** ** Reading time and counters *)
(* --------------------------------------------------------------------- *)

Lemma splitCount_bounds sep s :
  (1 <= splitCount sep s <= String.length s + 1)%nat.
Proof.
  induction s as [|c s IH]; simpl; [lia|].
  destruct (Ascii.eqb c sep); lia.
Qed.

(** X13.  The reading time of a post is the ceiling of its word count
    (pieces between single spaces) over 200, and it is never below one
    minute: an empty text counts as one word. *)
Theorem readingTime_bounds (p : Post) :
  let words := Z.of_nat (splitCount " " (content p)) in
  (1 <= readingTime p)%Z /\
  (words <= readingTime p * 200 < words + 200)%Z /\
  (readingTime p * 200 < Z.of_nat (String.length (content p)) + 201)%Z /\
  (content p = "" -> readingTime p = 1%Z).
Proof.
  cbv zeta. unfold readingTime.
  pose proof (splitCount_bounds " " (content p)) as Hw.
  pose proof (ceilDiv_ceiling (Z.of_nat (splitCount " " (content p))) 200
                ltac:(lia) ltac:(lia)) as Hc.
  repeat apply conj; try lia.
  intros E. rewrite E. reflexivity.
Qed.







(* --------------------------------------------------------------------- *)
(** ** The workflow and the model's queries *)
(* --------------------------------------------------------------------- *)




(* --------------------------------------------------------------------- *)
(** ** The pages of a listing *)
(* --------------------------------------------------------------------- *)

Lemma pages_concat {A} (lim : nat) (n : nat) : forall (l : list A),
  (0 < lim)%nat -> (List.length l <= n * lim)%nat ->
  concat (List.map (fun k => firstn lim (skipn ((k - 1) * lim) l))
                   (seq 1 n)) = l.
Proof.
  induction n as [|n IH]; intros l Hlim Hlen.
  - destruct l; [reflexivity | simpl in Hlen; lia].
  - rewrite <- cons_seq. rewrite List.map_cons, concat_cons.
    replace ((1 - 1) * lim)%nat with 0%nat by lia. rewrite skipn_O.
    rewrite <- seq_shift, List.map_map.
    rewrite (List.map_ext_in _
               (fun k => firstn lim (skipn ((k - 1) * lim) (skipn lim l)))).
    + rewrite IH; [apply firstn_skipn | exact Hlim |].
      rewrite length_skipn. lia.
    + intros k Hk. apply in_seq in Hk.
      rewrite skipn_skipn. f_equal. f_equal.
      destruct k as [|k]; [lia|].
      replace (S (S k) - 1)%nat with (S k) by lia.
      replace (S k - 1)%nat with k by lia. simpl. lia.
Qed.

(** X16.  The pages of a listing partition it: for a limit of at least 1,
    the records of pages 1 to [totalPages], one after the other, are the
    matching records, each once and in order. *)
Theorem pages_partition (limit : Z) (matching : list Post) :
  (1 <= limit)%Z ->
  concat (List.map (fun k => fst (paginate (Z.of_nat k) limit matching))
            (seq 1 (Z.to_nat (totalPages (snd (paginate 1 limit matching))))))
  = matching.
Proof.
  intros Hl. unfold paginate. cbn [fst snd totalPages].
  pose proof (ceilDiv_ceiling (Z.of_nat (List.length matching)) limit
                ltac:(lia) Hl) as Hc.
  set (n := ceilDiv (Z.of_nat (List.length matching)) limit) in *.
  assert (Hn : (0 <= n)%Z) by nia.
  rewrite (List.map_ext _
     (fun k => firstn (Z.to_nat limit)
                 (skipn ((k - 1) * Z.to_nat limit) matching))).
  - apply pages_concat; [lia|]. nia.
  - intros k. f_equal. f_equal. destruct k as [|k].
    + replace ((Z.of_nat 0 - 1) * limit)%Z with (- limit)%Z by lia.
      destruct limit; try lia; reflexivity.
    + replace (Z.of_nat (S k) - 1)%Z with (Z.of_nat k) by lia.
      rewrite Z2Nat.inj_mul by lia. rewrite Nat2Z.id.
      replace (S k - 1)%nat with k by lia. reflexivity.
Qed.

Lemma pages_partition_witness :
  concat (List.map (fun k => fst (paginate (Z.of_nat k) 2 [draft1; pending1; rejected1]))
            (seq 1 (Z.to_nat (totalPages
                       (snd (paginate 1 2 [draft1; pending1; rejected1]))))))
  = [draft1; pending1; rejected1].
Proof. apply (pages_partition 2). lia. Defined.

(** X17.  No page holds more records than the limit; a page that reports
    a next page holds exactly the limit; a page past the last one is
    empty; and the last page itself is not empty. *)
Theorem page_sizes (page limit : Z) (matching : list Post) :
  (1 <= page)%Z -> (1 <= limit)%Z ->
  let posts := fst (paginate page limit matching) in
  let pg := snd (paginate page limit matching) in
  (Z.of_nat (List.length posts) <= limit)%Z /\
  (hasNextPage pg = true -> Z.of_nat (List.length posts) = limit) /\
  ((totalPages pg < page)%Z -> posts = []) /\
  (page = totalPages pg -> posts <> []).
Proof.
  intros Hp Hl. cbv zeta. unfold paginate.
  cbn [fst snd totalPages hasNextPage].
  pose proof (ceilDiv_ceiling (Z.of_nat (List.length matching)) limit
                ltac:(lia) Hl) as Hc.
  set (n := ceilDiv (Z.of_nat (List.length matching)) limit) in *.
  rewrite length_firstn, length_skipn.
  repeat apply conj.
  - lia.
  - intros H. apply Z.ltb_lt in H. nia.
  - intros H. apply length_zero_iff_nil.
    rewrite length_firstn, length_skipn. nia.
  - intros H E. apply (f_equal (@List.length Post)) in E.
    rewrite length_firstn, length_skipn in E. simpl in E. nia.
Qed.

Lemma page_sizes_witness :
  List.length (fst (paginate 1 2 [draft1; pending1; rejected1])) = 2%nat /\
  fst (paginate 3 2 [draft1; pending1; rejected1]) = [].
Proof.
  split.
  - destruct (page_sizes 1 2 [draft1; pending1; rejected1]) as (_ & H & _);
      [lia | lia |].
    apply Nat2Z.inj. apply H. reflexivity.
  - destruct (page_sizes 3 2 [draft1; pending1; rejected1]) as (_ & _ & H & _);
      [lia | lia |].
    apply H. vm_compute. reflexivity.
Defined.

(* --------------------------------------------------------------------- *)
(** ** From the header to the user *)
(* --------------------------------------------------------------------- *)

Lemma substring_all s : String.substring 0 (String.length s) s = s.
Proof. induction s as [|c s IH]; simpl; [reflexivity | by rewrite IH]. Qed.

Lemma prefix_split p : forall s,
  String.prefix p s = true ->
  s = (p ++ String.substring (String.length p)
              (String.length s - String.length p) s)%string.
Proof.
  induction p as [|a p IH]; intros s H.
  - simpl. rewrite Nat.sub_0_r. symmetry. apply substring_all.
  - destruct s as [|b s]; simpl in H; [discriminate|].
    destruct (ascii_dec a b) as [->|]; [|discriminate].
    cbn [String.length Nat.sub String.substring].
    change (String b s = String b (p ++ String.substring (String.length p)
              (String.length s - String.length p) s)%string).
    f_equal. by apply IH.
Qed.

Lemma prefix_append p s : String.prefix p (p ++ s)%string = true.
Proof.
  induction p as [|a p IH]; simpl; [by destruct s|].
  destruct (ascii_dec a a); [exact IH | done].
Qed.

Lemma substring_append p s :
  String.substring (String.length p)
    (String.length (p ++ s)%string - String.length p) (p ++ s)%string = s.
Proof.
  induction p as [|a p IH]; simpl.
  - rewrite Nat.sub_0_r. apply substring_all.
  - exact IH.
Qed.

(** X18.  [extractTokenFromHeader] yields a token exactly for a header
    that is the word Bearer, one space and the token; the token is what
    follows, with nothing trimmed.  A header with another scheme, with
    the word in another case or without the space yields none. *)
Theorem extractTokenFromHeader_spec (authorization : option string)
    (token : string) :
  extractTokenFromHeader authorization = Some token <->
  authorization = Some ("Bearer " ++ token)%string.
Proof.
  unfold extractTokenFromHeader. split.
  - destruct authorization as [h|]; [|discriminate].
    destruct (String.prefix "Bearer " h) eqn:Hp.
    + rewrite orb_false_r.
      destruct (negb (Js.truthy (Js.Str h))); [discriminate|].
      intros [= <-]. f_equal. apply (prefix_split "Bearer " h Hp).
    + rewrite orb_true_r. discriminate.
  - intros ->. rewrite (prefix_append "Bearer " token).
    replace (Js.truthy (Js.Str ("Bearer " ++ token)%string)) with true
      by reflexivity.
    cbn [negb orb]. f_equal. apply (substring_append "Bearer " token).
Qed.

(** X19.  The user a token stands for is the one the collection holds
    under the token's id when the request comes in: until the token
    expires, the request sees that record if it is there and active,
    with the role it has then, and no user otherwise; from the expiry on
    it sees no user. *)
Theorem session_follows_store
    (hmac : string -> string -> Claims -> string)
    (JWT_SECRET : string) (JWT_EXPIRES_IN : Z)
    (issued now : Z) (user : User) (users : gmap string User) :
  exists token,
    generateToken hmac JWT_SECRET JWT_EXPIRES_IN issued (Some user) =
      Return token /\
    getCurrentUser hmac JWT_SECRET now users token =
      if (issued + JWT_EXPIRES_IN <=? now)%Z then None
      else match users !! user_id user with
           | Some stored => if isActive stored then Some stored else None
           | None => None
           end.
Proof.
  unfold generateToken, jwt_sign. eexists. split; [reflexivity|].
  unfold getCurrentUser, verifyToken, jwt_verify.
  cbn [includes existsb String.eqb Ascii.eqb Bool.eqb orb negb].
  rewrite String.eqb_refl. cbn [negb c_exp].
  destruct (issued + JWT_EXPIRES_IN <=? now)%Z; [reflexivity|].
  cbn [c_id mbind option_bind].
  destruct (users !! user_id user) as [stored|]; [|reflexivity].
  by destruct (isActive stored).
Qed.

(* --------------------------------------------------------------------- *)
(** ** Administration of users *)
(* --------------------------------------------------------------------- *)















(* --------------------------------------------------------------------- *)
(** ** Slugs made from names and titles *)
(* --------------------------------------------------------------------- *)

Lemma alnum_not_hyphen c : alnumClass c = true -> hyphen c = false.
Proof.
  destruct c as [[] [] [] [] [] [] [] []]; vm_compute; intros H;
    first [reflexivity | discriminate H].
Qed.

Lemma hyphen_eq c : hyphen c = true -> c = "-"%char.
Proof.
  destruct c as [[] [] [] [] [] [] [] []]; vm_compute; intros H;
    first [reflexivity | discriminate H].
Qed.

Lemma slugChar_split c : slugChar c = alnumClass c || hyphen c.
Proof. reflexivity. Qed.

Lemma alnum_slugChar c : alnumClass c = true -> slugChar c = true.
Proof. intros H. by rewrite slugChar_split, H. Qed.

Lemma hyphen_slugChar c : hyphen c = true -> slugChar c = true.
Proof. intros H. rewrite slugChar_split, H. apply orb_true_r. Qed.

Lemma hyphensApart_weaken s : hyphensApart true s = true -> hyphensApart false s = true.
Proof.
  destruct s as [|c r]; [done|]. cbn [hyphensApart].
  destruct (hyphen c); [discriminate | done].
Qed.

Lemma hyphensApart_slugChars s : forall b,
  hyphensApart b s = true -> allChars slugChar s = true.
Proof.
  induction s as [|c r IH]; intros b H; [done|].
  cbn [hyphensApart] in H. cbn [allChars].
  destruct (hyphen c) eqn:Hh; apply andb_true_iff in H as [H1 H2].
  - rewrite (hyphen_slugChar c Hh). by apply (IH true).
  - rewrite (alnum_slugChar c H1). by apply (IH false).
Qed.

Lemma replaceRuns_apart s : forall b,
  hyphensApart b (replaceRuns (fun c => negb (alnumClass c)) b s) = true.
Proof.
  induction s as [|c r IH]; intros b; [done|].
  cbn [replaceRuns]. destruct (alnumClass c) eqn:Ha; cbn [negb].
  - cbn [hyphensApart]. rewrite (alnum_not_hyphen c Ha), Ha. apply IH.
  - destruct b; [apply IH|].
    cbn [hyphensApart]. replace (hyphen "-") with true by reflexivity.
    cbn [negb andb]. apply IH.
Qed.

Lemma stripLeadingHyphen_apart s :
  hyphensApart false s = true -> hyphensApart true (stripLeadingHyphen s) = true.
Proof.
  destruct s as [|c r]; [done|]. cbn [hyphensApart stripLeadingHyphen].
  destruct (hyphen c) eqn:Hh; [done|].
  intros H. cbn [hyphensApart]. by rewrite Hh.
Qed.

Lemma stripTrailingHyphen_nil c r :
  stripTrailingHyphen (String c r) = EmptyString ->
  r = EmptyString /\ hyphen c = true.
Proof.
  destruct r as [|c2 r2]; cbn [stripTrailingHyphen].
  - destruct (hyphen c); [done | discriminate].
  - discriminate.
Qed.

Lemma stripTrailingHyphen_cons c c2 r2 :
  stripTrailingHyphen (String c (String c2 r2)) =
  String c (stripTrailingHyphen (String c2 r2)).
Proof. reflexivity. Qed.

Lemma stripTrailingHyphen_apart s : forall b,
  hyphensApart b s = true -> hyphensApart b (stripTrailingHyphen s) = true.
Proof.
  induction s as [|c r IH]; intros b H; [done|].
  destruct r as [|c2 r2].
  - cbn [stripTrailingHyphen]. destruct (hyphen c); [done | exact H].
  - rewrite stripTrailingHyphen_cons.
    cbn [hyphensApart] in H |- *.
    destruct (hyphen c); apply andb_true_iff in H as [H1 H2];
      rewrite H1; cbn [andb]; by apply IH.
Qed.

Lemma endsWithHyphen_cons c c2 r2 :
  endsWithHyphen (String c (String c2 r2)) = endsWithHyphen (String c2 r2).
Proof. reflexivity. Qed.

Lemma stripTrailingHyphen_ends s : forall b,
  hyphensApart b s = true -> endsWithHyphen (stripTrailingHyphen s) = false.
Proof.
  induction s as [|c r IH]; intros b H; [done|].
  destruct r as [|c2 r2].
  - cbn [stripTrailingHyphen]. destruct (hyphen c) eqn:Hh; [done|].
    cbn [endsWithHyphen]. exact Hh.
  - rewrite stripTrailingHyphen_cons.
    cbn [hyphensApart] in H.
    destruct (stripTrailingHyphen (String c2 r2)) as [|c3 r3] eqn:E.
    + apply stripTrailingHyphen_nil in E as [-> Hh2].
      cbn [endsWithHyphen].
      destruct (hyphen c) eqn:Hh; [|done].
      apply andb_true_iff in H as [_ H]. cbn [hyphensApart] in H.
      rewrite Hh2 in H. discriminate H.
    + rewrite endsWithHyphen_cons.
      destruct (hyphen c); apply andb_true_iff in H as [_ H];
        by apply (IH _ H).
Qed.

Lemma replaceRuns_fixed s : forall b,
  hyphensApart b s = true ->
  replaceRuns (fun c => negb (alnumClass c)) b s = s.
Proof.
  induction s as [|c r IH]; intros b H; [done|].
  cbn [hyphensApart] in H. cbn [replaceRuns].
  destruct (hyphen c) eqn:Hh; apply andb_true_iff in H as [H1 H2].
  - destruct (alnumClass c) eqn:Ha;
      [by rewrite (alnum_not_hyphen c Ha) in Hh|].
    cbn [negb]. destruct b; [discriminate H1|].
    rewrite (IH true H2). by rewrite (hyphen_eq c Hh).
  - rewrite H1. cbn [negb]. by rewrite (IH false H2).
Qed.

Lemma stripLeadingHyphen_fixed s :
  hyphensApart true s = true -> stripLeadingHyphen s = s.
Proof.
  destruct s as [|c r]; [done|]. cbn [hyphensApart stripLeadingHyphen].
  destruct (hyphen c); [discriminate | done].
Qed.

Lemma stripTrailingHyphen_fixed s :
  endsWithHyphen s = false -> stripTrailingHyphen s = s.
Proof.
  induction s as [|c r IH]; [done|].
  destruct r as [|c2 r2].
  - cbn [endsWithHyphen stripTrailingHyphen]. by intros ->.
  - rewrite endsWithHyphen_cons, stripTrailingHyphen_cons.
    intros H. by rewrite (IH H).
Qed.

Lemma replaceRuns_contains cls s : forall b,
  (forall c, alnumClass c = true -> cls c = false) ->
  containsClass alnumClass (replaceRuns cls b s) = containsClass alnumClass s.
Proof.
  induction s as [|c r IH]; intros b Hc; [done|].
  cbn [replaceRuns containsClass].
  destruct (alnumClass c) eqn:Ha.
  - rewrite (Hc c Ha). cbn [containsClass]. by rewrite Ha.
  - cbn [orb]. destruct (cls c).
    + destruct b; [by apply IH|]. cbn [containsClass].
      replace (alnumClass "-") with false by reflexivity. by apply IH.
    + cbn [containsClass]. rewrite Ha. by apply IH.
Qed.

Lemma stripLeadingHyphen_contains s :
  containsClass alnumClass (stripLeadingHyphen s) = containsClass alnumClass s.
Proof.
  destruct s as [|c r]; [done|]. cbn [stripLeadingHyphen].
  destruct (hyphen c) eqn:Hh; [|done]. cbn [containsClass].
  destruct (alnumClass c) eqn:Ha; [|done].
  by rewrite (alnum_not_hyphen c Ha) in Hh.
Qed.

Lemma stripTrailingHyphen_contains s :
  containsClass alnumClass (stripTrailingHyphen s) = containsClass alnumClass s.
Proof.
  induction s as [|c r IH]; [done|].
  destruct r as [|c2 r2].
  - cbn [stripTrailingHyphen]. destruct (hyphen c) eqn:Hh; [|done].
    cbn [containsClass]. destruct (alnumClass c) eqn:Ha; [|done].
    by rewrite (alnum_not_hyphen c Ha) in Hh.
  - rewrite stripTrailingHyphen_cons.
    change (alnumClass c || containsClass alnumClass
                               (stripTrailingHyphen (String c2 r2)) =
            alnumClass c || containsClass alnumClass (String c2 r2)).
    by rewrite IH.
Qed.

Lemma hyphens_between s : forall b i,
  hyphensApart b s = true -> endsWithHyphen s = false ->
  String.get i s = Some "-"%char ->
  (i = 0%nat -> b = false) /\
  (forall j, i = S j ->
     exists a, String.get j s = Some a /\ alnumClass a = true) /\
  (exists c, String.get (S i) s = Some c /\ alnumClass c = true).
Proof.
  induction s as [|c r IH]; intros b i H He Hg; [discriminate Hg|].
  destruct i as [|i].
  - cbn [String.get] in Hg. injection Hg as ->.
    cbn [hyphensApart] in H.
    replace (hyphen "-") with true in H by reflexivity.
    apply andb_true_iff in H as [Hb Hr].
    split; [intros _; by destruct b|]. split; [intros j; discriminate|].
    destruct r as [|c2 r2]; [discriminate He|].
    exists c2. split; [reflexivity|].
    cbn [hyphensApart] in Hr. destruct (hyphen c2); [discriminate Hr|].
    by apply andb_true_iff in Hr as [Hr _].
  - cbn [String.get] in Hg.
    assert (Hr : hyphensApart (hyphen c) r = true).
    { cbn [hyphensApart] in H.
      destruct (hyphen c); by apply andb_true_iff in H as [_ H]. }
    assert (He' : endsWithHyphen r = false).
    { destruct r as [|c2 r2]; [discriminate Hg|].
      by rewrite endsWithHyphen_cons in He. }
    destruct (IH (hyphen c) i Hr He' Hg) as (H0 & Hprev & Hnext).
    split; [discriminate|]. split.
    + intros j [= <-]. destruct i as [|i'].
      * exists c. split; [reflexivity|].
        cbn [hyphensApart] in H. rewrite (H0 eq_refl) in H.
        by apply andb_true_iff in H as [H _].
      * destruct (Hprev i' eq_refl) as (a & Ha1 & Ha2). by exists a.
    + exact Hnext.
Qed.

Lemma categorySlug_apart name :
  hyphensApart true (categorySlug name) = true /\
  endsWithHyphen (categorySlug name) = false.
Proof.
  unfold categorySlug.
  pose proof (replaceRuns_apart (toLowerCase name) false) as H.
  apply stripLeadingHyphen_apart in H. split.
  - by apply stripTrailingHyphen_apart.
  - by apply (stripTrailingHyphen_ends _ true).
Qed.

(** X24.  The slug the hook of [Category] makes of a name is in normal
    form: its characters are of [[a-z0-9-]], every hyphen stands between
    two characters of [[a-z0-9]] (none leads, none trails, no two meet),
    making the slug of a slug changes nothing, and the slug is empty
    exactly when the lower-cased name has no character of [[a-z0-9]]. *)
Theorem categorySlug_normal_form (name : string) :
  let s := categorySlug name in
  allChars slugChar s = true /\
  (forall i, String.get i s = Some "-"%char ->
     exists j a b, i = S j /\
       String.get j s = Some a /\ alnumClass a = true /\
       String.get (S i) s = Some b /\ alnumClass b = true) /\
  categorySlug s = s /\
  (s = EmptyString <->
   containsClass alnumClass (toLowerCase name) = false).
Proof.
  cbv zeta. destruct (categorySlug_apart name) as [Ha He].
  assert (Hc : containsClass alnumClass (categorySlug name) =
               containsClass alnumClass (toLowerCase name)).
  { unfold categorySlug.
    rewrite stripTrailingHyphen_contains, stripLeadingHyphen_contains.
    apply replaceRuns_contains. by intros c ->. }
  split; [by apply (hyphensApart_slugChars _ true)|]. split; [|split].
  - intros i Hg.
    destruct (hyphens_between _ true i Ha He Hg) as (H0 & Hprev & b & Hb1 & Hb2).
    destruct i as [|j]; [by specialize (H0 eq_refl)|].
    destruct (Hprev j eq_refl) as (a & Ha1 & Ha2).
    by exists j, a, b.
  - unfold categorySlug at 1.
    rewrite (toLowerCase_slug _ (hyphensApart_slugChars _ true Ha)).
    rewrite (replaceRuns_fixed _ false (hyphensApart_weaken _ Ha)).
    rewrite (stripLeadingHyphen_fixed _ Ha).
    by apply stripTrailingHyphen_fixed.
  - rewrite <- Hc. split; [by intros ->|].
    destruct (categorySlug name) as [|c r]; [done|].
    cbn [hyphensApart] in Ha. cbn [containsClass].
    destruct (hyphen c); [discriminate Ha|].
    apply andb_true_iff in Ha as [-> _]. discriminate.
Qed.

Lemma allChars_append cls s t :
  allChars cls (s ++ t)%string = allChars cls s && allChars cls t.
Proof.
  induction s as [|c r IH]; [done|].
  change (cls c && allChars cls (r ++ t)%string =
          cls c && allChars cls r && allChars cls t).
  by rewrite IH, andb_assoc.
Qed.

Lemma allChars_impl (P Q : ascii -> bool) s :
  (forall c, P c = true -> Q c = true) ->
  allChars P s = true -> allChars Q s = true.
Proof.
  intros HPQ. induction s as [|c r IH]; [done|]. cbn [allChars].
  intros H. apply andb_true_iff in H as [H1 H2].
  by rewrite (HPQ c H1), IH.
Qed.

Lemma removeSpecial_chars s :
  allChars (fun c => slugChar c || Js.whitespace c) (removeSpecial s) = true.
Proof.
  induction s as [|c r IH]; [done|]. cbn [removeSpecial].
  destruct (alnumClass c || Js.whitespace c || hyphen c) eqn:E; [|exact IH].
  cbn [allChars]. rewrite IH, andb_true_r, slugChar_split.
  by destruct (alnumClass c), (Js.whitespace c), (hyphen c).
Qed.

Lemma replaceRuns_whitespace s : forall b,
  allChars (fun c => slugChar c || Js.whitespace c) s = true ->
  allChars slugChar (replaceRuns Js.whitespace b s) = true.
Proof.
  induction s as [|c r IH]; intros b H; [done|].
  cbn [allChars] in H. apply andb_true_iff in H as [H1 H2].
  cbn [replaceRuns]. destruct (Js.whitespace c).
  - destruct b; [by apply IH|]. cbn [allChars].
    replace (slugChar "-") with true by reflexivity. by apply IH.
  - cbn [allChars]. rewrite orb_false_r in H1. rewrite H1. by apply IH.
Qed.

Lemma replaceRuns_slugChars cls s : forall b,
  allChars slugChar s = true ->
  allChars slugChar (replaceRuns cls b s) = true.
Proof.
  induction s as [|c r IH]; intros b H; [done|].
  cbn [allChars] in H. apply andb_true_iff in H as [H1 H2].
  cbn [replaceRuns]. destruct (cls c).
  - destruct b; [by apply IH|]. cbn [allChars].
    replace (slugChar "-") with true by reflexivity. by apply IH.
  - cbn [allChars]. rewrite H1. by apply IH.
Qed.

Lemma replaceRuns_length cls s : forall b,
  (String.length (replaceRuns cls b s) <= String.length s)%nat.
Proof.
  induction s as [|c r IH]; intros b; [done|].
  cbn [replaceRuns]. destruct (cls c).
  - destruct b; cbn [String.length].
    + specialize (IH true). lia.
    + specialize (IH true). lia.
  - cbn [String.length]. specialize (IH false). lia.
Qed.

Lemma replaceRuns_none cls s : forall b,
  allChars (fun c => negb (cls c)) s = true -> replaceRuns cls b s = s.
Proof.
  induction s as [|c r IH]; intros b H; [done|].
  cbn [allChars] in H. apply andb_true_iff in H as [H1 H2].
  cbn [replaceRuns]. apply negb_true_iff in H1. rewrite H1.
  by rewrite IH.
Qed.

Lemma removeSpecial_length s :
  (String.length (removeSpecial s) <= String.length s)%nat.
Proof.
  induction s as [|c r IH]; [done|]. cbn [removeSpecial].
  destruct (alnumClass c || Js.whitespace c || hyphen c);
    cbn [String.length]; lia.
Qed.

Lemma removeSpecial_alnum s :
  allChars alnumClass s = true -> removeSpecial s = s.
Proof.
  induction s as [|c r IH]; [done|]. cbn [allChars removeSpecial].
  intros H. apply andb_true_iff in H as [H1 H2].
  rewrite H1. cbn [orb]. by rewrite IH.
Qed.

Lemma toLowerCase_length s : String.length (toLowerCase s) = String.length s.
Proof. induction s as [|c r IH]; [done|]. cbn [toLowerCase String.length]. by rewrite IH. Qed.

Lemma baseSlug_untrimmed title :
  baseSlug title =
    replaceRuns hyphen false
      (replaceRuns Js.whitespace false (removeSpecial (toLowerCase title))) /\
  allChars slugChar (baseSlug title) = true.
Proof.
  assert (H : allChars slugChar
                (replaceRuns hyphen false
                   (replaceRuns Js.whitespace false
                      (removeSpecial (toLowerCase title)))) = true).
  { apply replaceRuns_slugChars, replaceRuns_whitespace, removeSpecial_chars. }
  unfold baseSlug, Js.trim.
  rewrite (trimStart_slug _ H), (trimEnd_slug _ H). done.
Qed.

(** X25.  The slug the form makes of a title always passes the slug
    pattern of the create route, since the hyphen and the digits of the
    time stamp are appended; it may start with a hyphen, as [trim] does
    not remove hyphens.  Its length is that of the base slug, plus one,
    plus that of the time stamp, and the base slug is no longer than the
    title; for a title of lower-case letters and digits the base slug is
    the title, so the route's bound of 3 to 100 characters on the slug
    holds exactly when title and time stamp have 99 characters or less
    together. *)
Theorem clientSlug_accepted (title timestamp : string) :
  allChars Js.digitClass timestamp = true ->
  (2 <= String.length timestamp)%nat ->
  slugPattern (clientSlug title timestamp) = true /\
  String.length (clientSlug title timestamp) =
    (String.length (baseSlug title) + 1 + String.length timestamp)%nat /\
  (String.length (baseSlug title) <= String.length title)%nat /\
  (allChars alnumClass title = true ->
   baseSlug title = title /\
   (lengthBetween 3 100 (clientSlug title timestamp) = true <->
    (String.length title + String.length timestamp <= 99)%nat)) /\
  clientSlug EmptyString timestamp = String "-" timestamp.
Proof.
  intros Hd Hl. destruct (baseSlug_untrimmed title) as [Hb Hs].
  assert (Hlen : String.length (clientSlug title timestamp) =
    (String.length (baseSlug title) + 1 + String.length timestamp)%nat).
  { unfold clientSlug. rewrite !append_length. cbn [String.length]. lia. }
  split; [|split; [exact Hlen|split; [|split]]].
  - unfold slugPattern. apply andb_true_iff. split.
    + apply negb_true_iff, String.eqb_neq. intros E.
      rewrite E in Hlen. cbn [String.length] in Hlen. lia.
    + unfold clientSlug. rewrite !allChars_append, Hs.
      replace (allChars slugChar "-") with true by reflexivity.
      cbn [andb]. apply (allChars_impl Js.digitClass); [|exact Hd].
      intros c H. unfold slugChar. rewrite H. by rewrite orb_true_r.
  - rewrite Hb.
    pose proof (replaceRuns_length hyphen
      (replaceRuns Js.whitespace false (removeSpecial (toLowerCase title)))
      false).
    pose proof (replaceRuns_length Js.whitespace
      (removeSpecial (toLowerCase title)) false).
    pose proof (removeSpecial_length (toLowerCase title)).
    pose proof (toLowerCase_length title). lia.
  - intros Ha.
    assert (Hbt : baseSlug title = title).
    { rewrite Hb.
      rewrite (toLowerCase_slug title
                 (allChars_impl _ _ _ alnum_slugChar Ha)).
      rewrite (removeSpecial_alnum _ Ha).
      rewrite (replaceRuns_none Js.whitespace).
      - apply replaceRuns_none.
        apply (allChars_impl alnumClass); [|exact Ha].
        intros c H. by rewrite (alnum_not_hyphen c H).
      - apply (allChars_impl alnumClass); [|exact Ha].
        intros c H.
        by rewrite (slugChar_not_whitespace c (alnum_slugChar c H)). }
    split; [exact Hbt|].
    unfold lengthBetween. rewrite Hlen, Hbt.
    rewrite andb_true_iff, !Nat.leb_le. lia.
  - reflexivity.
Qed.

Lemma clientSlug_accepted_witness :
  slugPattern (clientSlug " Hello, World" "1700000000000") = true.
Proof.
  destruct (clientSlug_accepted " Hello, World" "1700000000000") as [H _].
  - reflexivity.
  - simpl. lia.
  - exact H.
Defined.
